(** * Content Forge Bot: a shallow embedding of [main.py]

    The bot turns a product URL into four pieces of sales copy and, on
    approval, posts a consolidated text through SocialBu.  This file
    embeds the helper functions and the two stateful chat handlers of
    [main.py] and proves properties of the section parser, the draft
    dictionary, the scraper's clean-up, the distributor and the handlers.

    Python [str] values are sequences of Unicode code points; they are
    modelled as [list N].  Dictionaries are [gmap]s.  Calls that leave
    the process (HTTP, the Gemini client, Telegram replies) are events in
    a trace, and their answers come from a [world] record. *)

From Stdlib Require Import ZArith NArith Ascii String DecimalString.
From stdpp Require Import base option list gmap.

Local Open Scope Z_scope.

(** ** Python strings *)

Module PyStr.

(** A [str] is its sequence of code points. *)
Abbreviation str := (list N).

(** A literal of the source, for the ASCII range. *)
Definition lit (s : string) : str :=
  (λ a, N_of_ascii a) <$> list_ascii_of_string s.

(** [len(s)] *)
Definition len (s : str) : Z := Z.of_nat (length s).

(** [s.startswith(sub)] *)
Fixpoint startswith (s sub : str) {struct sub} : bool :=
  match sub with
  | [] => true
  | c :: sub' =>
      match s with
      | [] => false
      | d :: s' => (c =? d)%N && startswith s' sub'
      end
  end.

(** Left-to-right scan behind [str.find]: [s] is the text still to be
    searched and [i] the index of its first character. *)
Fixpoint find_from (s sub : str) (i : nat) : option nat :=
  if startswith s sub then Some i
  else match s with
       | [] => None
       | _ :: s' => find_from s' sub (S i)
       end.

(** [s.find(sub, start)]: the lowest index at or after [start] where [sub]
    occurs, or [-1].  A negative [start] counts from the end, as for
    slices. *)
Definition find (s sub : str) (start : Z) : Z :=
  let n := len s in
  let st := if start <? 0 then Z.max 0 (start + n) else start in
  if n <? st then -1
  else match find_from (drop (Z.to_nat st) s) sub (Z.to_nat st) with
       | Some i => Z.of_nat i
       | None => -1
       end.

(** [sub in s] *)
Definition contains (s sub : str) : bool :=
  match find_from s sub 0 with
  | Some _ => true
  | None => false
  end.

(** Slice bounds: a negative index counts from the end, and the result
    is clipped to [0..len]. *)
Definition clip (n i : Z) : Z :=
  if i <? 0 then Z.max 0 (i + n) else Z.min i n.

(** [s[a:b]] *)
Definition slice (s : str) (a b : Z) : str :=
  let a' := clip (len s) a in
  let b' := clip (len s) b in
  take (Z.to_nat (b' - a')) (drop (Z.to_nat a') s).

(** [s[:b]] *)
Definition slice_to (s : str) (b : Z) : str := slice s 0 b.

(** The characters [str.strip()] and [str.split()] treat as whitespace
    (CPython's [Py_UNICODE_ISSPACE]). *)
Definition is_space (c : N) : bool :=
  ((9 <=? c) && (c <=? 13) || (28 <=? c) && (c <=? 32)
   || (c =? 133) || (c =? 160) || (c =? 5760)
   || (8192 <=? c) && (c <=? 8202)
   || (c =? 8232) || (c =? 8233) || (c =? 8239) || (c =? 8287)
   || (c =? 12288))%N.

Fixpoint lstrip (s : str) : str :=
  match s with
  | [] => []
  | c :: s' => if is_space c then lstrip s' else s
  end.

Definition rstrip (s : str) : str := reverse (lstrip (reverse s)).

(** [s.strip()] *)
Definition strip (s : str) : str := rstrip (lstrip s).

(** [s.split()]: the maximal runs of non-whitespace characters.  [w] is
    the current run, most recent character first. *)
Fixpoint split_go (w s : str) : list str :=
  match s with
  | [] => match w with [] => [] | _ => [reverse w] end
  | c :: s' =>
      if is_space c
      then match w with
           | [] => split_go [] s'
           | _ => reverse w :: split_go [] s'
           end
      else split_go (c :: w) s'
  end.

Definition split (s : str) : list str := split_go [] s.

(** [sep.join(parts)] *)
Fixpoint join (sep : str) (parts : list str) : str :=
  match parts with
  | [] => []
  | [p] => p
  | p :: rest => p ++ sep ++ join sep rest
  end.

(** [str(z)] for an [int]. *)
Definition str_of_int (z : Z) : str :=
  lit (NilEmpty.string_of_int (Z.to_int z)).

End PyStr.

Import PyStr.

(** ** The section parser of [generate_sales_copy] *)

Definition Facebook : str := Eval vm_compute in lit "Facebook".
Definition X_Twitter : str := Eval vm_compute in lit "X (Twitter)".
Definition LinkedIn : str := Eval vm_compute in lit "LinkedIn".
Definition Pinterest : str := Eval vm_compute in lit "Pinterest".

Definition platforms : list str := [Facebook; X_Twitter; LinkedIn; Pinterest].

(** The text ["## "] that opens every header and closes every section
    but the last. *)
Definition marker : str := Eval vm_compute in lit "## ".

(** One iteration of the loop over [platforms]. *)
Definition parse_platform (raw_text : str) (content_dict : gmap str str)
    (platform : str) : gmap str str :=
  let start_tag := marker ++ platform in
  let end_tag := if bool_decide (platform ≠ Pinterest) then Some marker else None in
  let start_index := find raw_text start_tag 0 in
  if bool_decide (start_index ≠ -1) then
    let content_start := start_index + len start_tag in
    let end_index :=
      match end_tag with
      | Some t => find raw_text t content_start
      | None => len raw_text
      end in
    let copy := strip (slice raw_text content_start end_index) in
    <[platform := copy]> content_dict
  else content_dict.

(** The whole loop, from the empty dictionary. *)
Definition parse_sections (raw_text : str) : gmap str str :=
  foldl (parse_platform raw_text) ∅ platforms.

Definition nl : str := [10%N].

(** ** Exceptions and values that come from outside *)

(** The exception classes the source tells apart in its [except] clauses;
    [e] is the text [str(e)] that an f-string would show. *)
Inductive exn : Type :=
  | RequestException (e : str)
  | APIError (e : str)
  | OtherException (e : str).

Inductive res (A : Type) : Type :=
  | Ok (a : A)
  | Raise (e : exn).
Arguments Ok {A} a.
Arguments Raise {A} e.

(** Calling a method that the object does not have. *)
Definition AttributeError : exn := OtherException (lit "AttributeError").

(** What [response.json()] can return.  The members of an object are kept
    in the order of the text; as in [json.loads], the last member with a
    given name wins.  A float is carried as the text Python prints for
    it. *)
#[warnings="-register-all"]
Inductive json : Type :=
  | JNull
  | JBool (b : bool)
  | JInt (z : Z)
  | JFloat (text : str)
  | JStr (s : str)
  | JList (items : list json)
  | JDict (members : list (str * json)).

Fixpoint members_get (ms : list (str * json)) (k : str) : option json :=
  match ms with
  | [] => None
  | (k', v) :: ms' =>
      match members_get ms' k with
      | Some v' => Some v'
      | None => if bool_decide (k' = k) then Some v else None
      end
  end.

(** [v.get(k, dflt)]: only a dict has the method. *)
Definition json_get (v : json) (k : str) (dflt : json) : res json :=
  match v with
  | JDict ms => Ok (default dflt (members_get ms k))
  | _ => Raise AttributeError
  end.

(** [v == 'success'] and the like. *)
Definition json_eq_str (v : json) (s : str) : bool :=
  match v with
  | JStr s' => bool_decide (s' = s)
  | _ => false
  end.

(** The page as the scraper sees it: the [.text] of the element each of
    its two [soup.find] queries returns, or [None]. *)
Record page : Type := {
  find_h1 : option str;
  find_description_div : option str }.

(** An HTTP response: its status, the text of the [HTTPError] that
    [raise_for_status] raises for it, and its body as the caller reads
    it ([BeautifulSoup(response.content, 'lxml')] or [response.json()]). *)
Record response (B : Type) : Type := {
  status_code : Z;
  http_error : str;
  body : res B }.
Arguments status_code {B} r.
Arguments http_error {B} r.
Arguments body {B} r.

Definition raise_for_status {B} (r : response B) : res unit :=
  if (400 <=? status_code r) && (status_code r <? 600)
  then Raise (RequestException (http_error r))
  else Ok tt.

(** The JSON body of the SocialBu request. *)
Record payload : Type := {
  api_key : str;
  content : str;
  platform_ids : list Z;
  schedule_time : str;
  media_urls : list str }.

(** Everything the process reads from outside: the environment variable,
    whether the Gemini client was built, the answers of the three
    services, and Python's [repr] of a list or dict (not modelled). *)
Record world : Type := {
  SOCIALBU_API_KEY : option str;
  gemini_client : bool;
  requests_get : str → res (response page);
  generate_content : str → res (option str);
  requests_post : payload → res (response json);
  repr_container : json → str }.

(** [str(v)], as an f-string formats a value. *)
Definition format (w : world) (v : json) : str :=
  match v with
  | JNull => lit "None"
  | JBool true => lit "True"
  | JBool false => lit "False"
  | JInt z => str_of_int z
  | JFloat t => t
  | JStr s => s
  | JList _ | JDict _ => repr_container w v
  end.

(** ** State, trace and the handler monad *)

(** The dictionary [scrape_product_details] returns. *)
Record product_details : Type := {
  pd_url : str;
  pd_title : str;
  pd_description : str }.

(** What a handler does that can be seen from outside it: the replies it
    sends, the requests that leave the process, and its calls of the
    three helper functions. *)
Inductive event : Type :=
  | Reply (text : str)
  | HttpGet (url : str)
  | Generate (prompt : str)
  | HttpPost (p : payload)
  | CallScrape (url : str)
  | CallGenerate (pd : product_details)
  | CallDistribute (content_dict : gmap str str).

(** [user_draft_content] is the module-level dictionary; [trace] records
    the events so far, oldest first.  Logging is not recorded. *)
Record state : Type := {
  user_draft_content : gmap Z (gmap str str);
  trace : list event }.

Definition M (A : Type) : Type := state → res A * state.

Definition ret {A} (a : A) : M A := λ s, (Ok a, s).
Definition raise {A} (e : exn) : M A := λ s, (Raise e, s).
Definition bind {A B} (m : M A) (f : A → M B) : M B :=
  λ s, match m s with
       | (Ok a, s') => f a s'
       | (Raise e, s') => (Raise e, s')
       end.
(** [try: m  except Exception as e: h e] *)
Definition try_except {A} (m : M A) (h : exn → M A) : M A :=
  λ s, match m s with
       | (Ok a, s') => (Ok a, s')
       | (Raise e, s') => h e s'
       end.
Definition lift {A} (r : res A) : M A := λ s, (r, s).
Definition emit (e : event) : M unit :=
  λ s, (Ok tt, {| user_draft_content := user_draft_content s; trace := trace s ++ [e] |}).
(** An outside call: it is recorded, then it answers or raises. *)
Definition call {A} (e : event) (r : res A) : M A :=
  bind (emit e) (λ _, lift r).

Notation "'let*' x ':=' m 'in' k" := (bind m (λ x, k))
  (at level 10, x name, m at level 100, k at level 200).

(** ** The helper functions *)

Definition title_not_found : str := lit "Product Title Not Found".
Definition description_not_found : str := lit "Description Not Found".

(** [' '.join(description.split())[:2000]] *)
Definition cleanup (description : str) : str :=
  slice_to (join (lit " ") (split description)) 2000.

(** What [scrape_product_details] computes from the parsed page. *)
Definition details_of_page (url : str) (soup : page) : product_details :=
  let title :=
    match find_h1 soup with
    | Some text => strip text
    | None => title_not_found
    end in
  let description :=
    match find_description_div soup with
    | Some text => strip text
    | None => description_not_found
    end in
  let description := cleanup description in
  {| pd_url := url; pd_title := title; pd_description := description |}.

Definition scrape_product_details (w : world) (url : str) : M (option product_details) :=
  let* _ := emit (CallScrape url) in
  try_except
    (let* response := call (HttpGet url) (requests_get w url) in
     let* _ := lift (raise_for_status response) in
     let* soup := lift (body response) in
     ret (Some (details_of_page url soup)))
    (λ e, match e with
          | RequestException _ => ret None
          | _ => ret None
          end).

Definition prompt_of (pd : product_details) : str :=
  nl ++ lit "    You are a professional content strategist. Your task is to generate platform-specific sales copy " ++ nl
  ++ lit "    for a product based on the following details." ++ nl
  ++ nl
  ++ lit "    Product Title: " ++ pd_title pd ++ nl
  ++ lit "    Product Description: " ++ pd_description pd ++ nl
  ++ lit "    Original Link: " ++ pd_url pd ++ nl
  ++ nl
  ++ lit "    Please generate four distinct pieces of content tailored for each platform: Facebook, X (Twitter), " ++ nl
  ++ lit "    LinkedIn, and Pinterest." ++ nl
  ++ lit "    " ++ nl
  ++ lit "    Format the response strictly using markdown headers for each platform:" ++ nl
  ++ nl
  ++ lit "    ## Facebook" ++ nl
  ++ lit "    [Content optimized for Facebook, including a strong CTA.]" ++ nl
  ++ nl
  ++ lit "    ## X (Twitter)" ++ nl
  ++ lit "    [Content optimized for X, short, punchy, and including relevant hashtags.]" ++ nl
  ++ nl
  ++ lit "    ## LinkedIn" ++ nl
  ++ lit "    [Content optimized for LinkedIn, professional, and focusing on business value.]" ++ nl
  ++ nl
  ++ lit "    ## Pinterest" ++ nl
  ++ lit "    [Content optimized for Pinterest, highly visual and description focused on a clear benefit.]" ++ nl
  ++ lit "    ".

Definition client_missing_msg : str := lit "Gemini client not initialized. Check API Key.".
Definition api_error_msg (e : str) : str :=
  lit "Gemini API Error: Could not generate content. " ++ e.
Definition generation_error_msg : str :=
  lit "An unexpected error occurred during content generation.".

(** Returns the pair of the source: the text and the dictionary, or a
    message and [None]. *)
Definition generate_sales_copy (w : world) (pd : product_details)
    : M (str * option (gmap str str)) :=
  let* _ := emit (CallGenerate pd) in
  if negb (gemini_client w) then ret (client_missing_msg, None)
  else
    try_except
      (let* text := call (Generate (prompt_of pd)) (generate_content w (prompt_of pd)) in
       (* [response.text] is [None] for a response without text, and
          [None.find] raises *)
       let* raw_text := match text with
                        | Some t => ret t
                        | None => raise AttributeError
                        end in
       ret (raw_text, Some (parse_sections raw_text)))
      (λ e, match e with
            | APIError msg => ret (api_error_msg msg, None)
            | _ => ret (generation_error_msg, None)
            end).

Definition key_missing_msg : str := lit "SocialBu API Key is missing. Distribution failed.".
Definition distributed_msg (post_id : str) : str :=
  lit "Content successfully distributed via SocialBu! (Post ID: " ++ post_id ++ lit ").".
Definition reported_error_msg (message : str) : str :=
  lit "SocialBu API reported an error: " ++ message.
Definition network_error_msg (e : str) : str :=
  lit "Distribution failed due to network/API error: " ++ e.
Definition distribution_error_msg : str :=
  lit "An unexpected error occurred during distribution.".

(** [content_dict.get(k, '')] *)
Definition dict_get (content_dict : gmap str str) (k : str) : str :=
  default [] (content_dict !! k).

Definition consolidated (content_dict : gmap str str) : str :=
  lit "Multi-platform content generated by Content Forge Bot:" ++ nl ++ nl
  ++ dict_get content_dict Facebook ++ nl ++ nl ++ dict_get content_dict X_Twitter.

Definition build_payload (key : str) (content_dict : gmap str str) : payload :=
  {| api_key := key;
     content := consolidated content_dict;
     platform_ids := [123; 456; 789];
     schedule_time := lit "now";
     media_urls := [] |}.

Definition distribute_content_socialbu (w : world) (content_dict : gmap str str) : M str :=
  let* _ := emit (CallDistribute content_dict) in
  match SOCIALBU_API_KEY w with
  | None | Some [] => ret key_missing_msg
  | Some key =>
      let payload := build_payload key content_dict in
      try_except
        (let* response := call (HttpPost payload) (requests_post w payload) in
         let* _ := lift (raise_for_status response) in
         let* socialbu_data := lift (body response) in
         let* status := lift (json_get socialbu_data (lit "status") JNull) in
         if json_eq_str status (lit "success") then
           let* data := lift (json_get socialbu_data (lit "data") (JDict [])) in
           let* post_id := lift (json_get data (lit "post_id") JNull) in
           ret (distributed_msg (format w post_id))
         else
           let* message := lift (json_get socialbu_data (lit "message") (JStr (lit "Unknown error"))) in
           ret (reported_error_msg (format w message)))
        (λ e, match e with
              | RequestException msg => ret (network_error_msg msg)
              | _ => ret distribution_error_msg
              end)
  end.

(** ** The draft dictionary *)

(** [user_draft_content[user_id] = generated_dict] *)
Definition put_draft (user_id : Z) (generated_dict : gmap str str)
    (drafts : gmap Z (gmap str str)) : gmap Z (gmap str str) :=
  <[user_id := generated_dict]> drafts.

(** The membership test of [approve_command] followed by
    [user_draft_content.pop(user_id)]: [None] stands for "not found". *)
Definition take_draft (user_id : Z) (drafts : gmap Z (gmap str str))
    : option (gmap str str) * gmap Z (gmap str str) :=
  match drafts !! user_id with
  | None => (None, drafts)
  | Some content_to_distribute => (Some content_to_distribute, delete user_id drafts)
  end.

Definition store_put (user_id : Z) (generated_dict : gmap str str) : M unit :=
  λ s, (Ok tt, {| user_draft_content := put_draft user_id generated_dict (user_draft_content s);
                  trace := trace s |}).

Definition store_take (user_id : Z) : M (option (gmap str str)) :=
  λ s, let '(r, drafts) := take_draft user_id (user_draft_content s) in
       (Ok r, {| user_draft_content := drafts; trace := trace s |}).

(** ** The chat handlers *)

Definition reply_text (text : str) : M unit := emit (Reply text).

Definition invalid_url_msg : str :=
  lit "That doesn't look like a valid URL. Please send a full product link (e.g., https://example.com/product).".
Definition received_msg : str :=
  [240; 376; 8221]%N ++ lit " URL received. Starting scraping and content generation with Gemini AI... This may take a moment.".
Definition scrape_failed_msg : str :=
  [226; 338]%N ++ lit " Failed to scrape product details from the URL. Please check the link or try a different one.".
Definition generation_failed_msg (generated_markdown : str) : str :=
  [226; 338]%N ++ lit " Content generation failed: " ++ generated_markdown.
Definition approve_prompt : str :=
  lit "Review the content above. If it is ready to be published, use the command **`/approve`** to post it now!".
Definition response_text (pd : product_details) (generated_markdown : str) : str :=
  [226; 339; 8230]%N ++ lit " **Content Draft Ready!**" ++ nl ++ nl
  ++ lit "**Product:** " ++ pd_title pd ++ nl
  ++ lit "**Source:** " ++ pd_url pd ++ nl ++ nl
  ++ lit "--- **Review Content** ---" ++ nl ++ nl
  ++ generated_markdown ++ nl ++ nl
  ++ lit "--- **Action** ---" ++ nl ++ nl
  ++ approve_prompt.
Definition nothing_to_approve_msg : str :=
  lit "There is no content waiting for approval. Please send a new product URL first to generate content.".
Definition approval_received_msg : str :=
  [240; 376; 353; 8364]%N ++ lit " Approval received! Initiating distribution to all social media platforms via SocialBu API...".
Definition status_msg (distribution_result : str) : str :=
  lit "**Distribution Status:**" ++ nl ++ nl ++ distribution_result.

Definition url_message (w : world) (user_id : Z) (url : str) : M unit :=
  if negb (startswith url (lit "http")) then
    reply_text invalid_url_msg
  else
    let* _ := reply_text received_msg in
    let* product_details := scrape_product_details w url in
    match product_details with
    | None => reply_text scrape_failed_msg
    | Some pd =>
        if contains (pd_description pd) description_not_found then
          reply_text scrape_failed_msg
        else
          let* generated := generate_sales_copy w pd in
          match generated with
          | (generated_markdown, None) =>
              reply_text (generation_failed_msg generated_markdown)
          | (generated_markdown, Some generated_dict) =>
              (* an empty dict is falsy too *)
              if bool_decide (generated_dict = ∅) then
                reply_text (generation_failed_msg generated_markdown)
              else
                let* _ := store_put user_id generated_dict in
                reply_text (response_text pd generated_markdown)
          end
    end.

Definition approve_command (w : world) (user_id : Z) : M unit :=
  let* taken := store_take user_id in
  match taken with
  | None => reply_text nothing_to_approve_msg
  | Some content_to_distribute =>
      let* _ := reply_text approval_received_msg in
      let* distribution_result := distribute_content_socialbu w content_to_distribute in
      reply_text (status_msg distribution_result)
  end.

(** The state a handler starts from when nothing has been recorded yet. *)
Definition with_drafts (drafts : gmap Z (gmap str str)) : state :=
  {| user_draft_content := drafts; trace := [] |}.

(** * Definitions used to state the properties *)

(** ** Generated texts *)

(** A header line of the generated text: [f"## {platform}"]. *)
Definition header (platform : str) : str := marker ++ platform.

(** A generated text without the Pinterest header, which ends with the
    LinkedIn body. *)
Definition no_pinterest_text : str :=
  lit "## Facebook" ++ nl ++ lit "A" ++ nl
  ++ lit "## X (Twitter)" ++ nl ++ lit "B" ++ nl
  ++ lit "## LinkedIn" ++ nl ++ lit "C".

(** ** Histories of the draft dictionary *)

(** A history of operations on the dictionary, oldest first. *)
Inductive store_op : Type :=
  | Put (user_id : Z) (generated_dict : gmap str str)
  | Take (user_id : Z).

Definition apply_op (drafts : gmap Z (gmap str str)) (o : store_op)
    : gmap Z (gmap str str) :=
  match o with
  | Put user_id generated_dict => put_draft user_id generated_dict drafts
  | Take user_id => (take_draft user_id drafts).2
  end.

Definition run_ops (ops : list store_op) : gmap Z (gmap str str) :=
  foldl apply_op ∅ ops.

Definition puts_for (s : Z) (o : store_op) : bool :=
  match o with
  | Put user_id _ => bool_decide (user_id = s)
  | Take _ => false
  end.

(** ** Traces *)

(** [st] with the events [evs] added and the drafts untouched. *)
Definition after (st : state) (evs : list event) : state :=
  {| user_draft_content := user_draft_content st; trace := trace st ++ evs |}.

Definition is_distribution (e : event) : bool :=
  match e with
  | CallDistribute _ | HttpPost _ => true
  | _ => false
  end.

Definition is_extraction (e : event) : bool :=
  match e with
  | CallScrape _ | HttpGet _ => true
  | _ => false
  end.

(** [m] answers [r] and adds the events [evs], from any state, without
    touching the drafts. *)
Definition runs {A} (m : M A) (r : res A) (evs : list event) : Prop :=
  ∀ st, m st = (r, after st evs).

(** What [scrape_product_details] returns, read off the answers of the
    world. *)
Definition scrape_result (w : world) (url : str) : option product_details :=
  match requests_get w url with
  | Ok resp =>
      match raise_for_status resp, body resp with
      | Ok _, Ok soup => Some (details_of_page url soup)
      | _, _ => None
      end
  | Raise _ => None
  end.

(** What [generate_sales_copy] returns, and the events it adds. *)
Definition generate_result (w : world) (pd : product_details)
    : str * option (gmap str str) :=
  if gemini_client w then
    match generate_content w (prompt_of pd) with
    | Ok (Some raw_text) => (raw_text, Some (parse_sections raw_text))
    | Ok None => (generation_error_msg, None)
    | Raise (APIError msg) => (api_error_msg msg, None)
    | Raise _ => (generation_error_msg, None)
    end
  else (client_missing_msg, None).

Definition generate_events (w : world) (pd : product_details) : list event :=
  CallGenerate pd :: (if gemini_client w then [Generate (prompt_of pd)] else []).

(** The events of a message that starts with [http], up to the answer of
    the scraper. *)
Definition scrape_events (url : str) : list event :=
  [Reply received_msg; CallScrape url; HttpGet url].

Definition is_generation (e : event) : bool :=
  match e with
  | CallGenerate _ | Generate _ => true
  | _ => false
  end.

(** ** Sample worlds *)

(** A response with status 200 and body [b]. *)
Definition ok_response {B} (b : B) : response B :=
  {| status_code := 200; http_error := []; body := Ok b |}.

Definition widget_page : page :=
  {| find_h1 := Some (lit " Widget ");
     find_description_div := Some (lit "  Great   widget" ++ nl) |}.

Definition page_without_description : page :=
  {| find_h1 := Some (lit "Widget"); find_description_div := None |}.

Definition four_sections : str :=
  lit "## Facebook" ++ nl ++ lit "A" ++ nl
  ++ lit "## X (Twitter)" ++ nl ++ lit "B" ++ nl
  ++ lit "## LinkedIn" ++ nl ++ lit "C" ++ nl
  ++ lit "## Pinterest" ++ nl ++ lit "D".

Definition posted_ok : json :=
  JDict [(lit "status", JStr (lit "success"));
         (lit "data", JDict [(lit "post_id", JInt 42)])].

(** A world in which every service answers: the page is [soup], Gemini
    writes [generated], SocialBu answers [posted]. *)
Definition sample_world (soup : page) (generated : str) (posted : json) : world :=
  {| SOCIALBU_API_KEY := Some (lit "secret");
     gemini_client := true;
     requests_get := λ _, Ok (ok_response soup);
     generate_content := λ _, Ok (Some generated);
     requests_post := λ _, Ok (ok_response posted);
     repr_container := λ _, [] |}.

Definition sample_url : str := lit "https://example.com/widget".

(** ** The distributor, read off the answers of the world *)

Definition res_bind {A B} (r : res A) (f : A → res B) : res B :=
  match r with
  | Ok a => f a
  | Raise e => Raise e
  end.

(** What the [try] block of [distribute_content_socialbu] makes of a
    response. *)
Definition read_response (w : world) (response : response json) : res str :=
  res_bind (raise_for_status response) (λ _,
  res_bind (body response) (λ socialbu_data,
  res_bind (json_get socialbu_data (lit "status") JNull) (λ status,
  if json_eq_str status (lit "success") then
    res_bind (json_get socialbu_data (lit "data") (JDict [])) (λ data,
    res_bind (json_get data (lit "post_id") JNull) (λ post_id,
    Ok (distributed_msg (format w post_id))))
  else
    res_bind (json_get socialbu_data (lit "message") (JStr (lit "Unknown error")))
      (λ message, Ok (reported_error_msg (format w message)))))).

(** The two [except] clauses. *)
Definition except_distribution (r : res str) : str :=
  match r with
  | Ok message => message
  | Raise (RequestException e) => network_error_msg e
  | Raise _ => distribution_error_msg
  end.

Definition distribute_result (w : world) (content_dict : gmap str str) : str :=
  match SOCIALBU_API_KEY w with
  | None | Some [] => key_missing_msg
  | Some key =>
      except_distribution
        (res_bind (requests_post w (build_payload key content_dict)) (read_response w))
  end.

Definition distribute_events (w : world) (content_dict : gmap str str) : list event :=
  CallDistribute content_dict ::
  match SOCIALBU_API_KEY w with
  | None | Some [] => []
  | Some key => [HttpPost (build_payload key content_dict)]
  end.

Definition posted_error : json :=
  JDict [(lit "status", JStr (lit "error")); (lit "message", JStr (lit "bad id"))].

(** A world whose key is [key] and whose SocialBu post answers [posted]. *)
Definition post_world (key : option str) (posted : res (response json)) : world :=
  {| SOCIALBU_API_KEY := key;
     gemini_client := true;
     requests_get := λ _, Ok (ok_response widget_page);
     generate_content := λ _, Ok (Some four_sections);
     requests_post := λ _, posted;
     repr_container := λ _, [] |}.

(** ** Shapes of cleaned-up text *)

Definition nonspace (c : N) : bool := negb (is_space c).

(** One run of [s.split()]: not empty, and free of whitespace. *)
Definition is_word (word : str) : Prop :=
  word ≠ [] ∧ Forall (λ c, is_space c = false) word.

(** Every whitespace character of [s] is a single space followed by a
    character that is not whitespace, or by the end of the text. *)
Fixpoint single_spaced (s : str) : bool :=
  match s with
  | [] => true
  | c :: s' =>
      (if is_space c
       then (c =? 32)%N && match s' with [] => true | c' :: _ => nonspace c' end
       else true)
      && single_spaced s'
  end.

(** [s] is single-spaced and does not begin with whitespace. *)
Definition collapsed (s : str) : bool :=
  match s with [] => true | c :: _ => nonspace c end && single_spaced s.

(** The text the scraper takes as the description before the clean-up. *)
Definition description_text (soup : page) : str :=
  match find_description_div soup with
  | Some text => strip text
  | None => description_not_found
  end.

Definition long_page : page :=
  {| find_h1 := None;
     find_description_div := Some (lit "  Great " ++ replicate 3000 120%N ++ nl) |}.

(** * The remaining handlers and the dispatch of [main] *)

Definition welcome_msg : str :=
  lit "Welcome to the **Content Forge Bot!**" ++ nl ++ nl
  ++ lit "To start, simply send me a **product URL/link** from a website. "
  ++ lit "I will scrape the details, generate multi-platform sales copy using Gemini AI, "
  ++ lit "and send it back for your review.".

(** The reply is sent as HTML with a forced-reply markup; the trace keeps
    its text. *)
Definition start_command : M unit := reply_text welcome_msg.

Definition help_msg : str :=
  lit "**Available Commands:**" ++ nl
  ++ lit "/start - Begin the content generation process." ++ nl
  ++ lit "/help - Show this help message." ++ nl
  ++ lit "/approve - Use this command to instantly distribute the last reviewed content via SocialBu.".

Definition help_command : M unit := reply_text help_msg.

(** An incoming update, as the transport classifies it: a message that
    starts with the command [/command], or a text message that is not a
    command. *)
Inductive update : Type :=
  | Command (user_id : Z) (command : str)
  | TextMessage (user_id : Z) (text : str).

(** The [CommandHandler]s that [main] registers, in its order. *)
Definition command_handlers : list (str * (world → Z → M unit)) :=
  [(lit "start", λ _ _, start_command);
   (lit "help", λ _ _, help_command);
   (lit "approve", approve_command)].

Fixpoint find_handler (command : str) (handlers : list (str * (world → Z → M unit)))
    : option (world → Z → M unit) :=
  match handlers with
  | [] => None
  | (name, handler) :: rest =>
      if bool_decide (name = command) then Some handler else find_handler command rest
  end.

(** The first handler that matches takes the update: a command goes to
    its [CommandHandler] and is dropped when none is registered for it;
    any other text goes to [url_message]. *)
Definition process_update (w : world) (u : update) : M unit :=
  match u with
  | Command user_id command =>
      match find_handler command command_handlers with
      | Some handler => handler w user_id
      | None => ret tt
      end
  | TextMessage user_id text => url_message w user_id text
  end.

(** Polling handles the updates one after the other; each update meets
    the world of its own time. *)
Definition run_polling (inputs : list (world * update)) (st : state) : state :=
  foldl (λ st input, (process_update input.1 input.2 st).2) st inputs.

(** [main]: without a bot token nothing is handled. *)
Definition main (BOT_TOKEN : option str) (inputs : list (world * update)) : state :=
  match BOT_TOKEN with
  | None | Some [] => with_drafts ∅
  | Some _ => run_polling inputs (with_drafts ∅)
  end.

(** * Further definitions used to state properties *)

(** [s] neither starts nor ends with a whitespace character. *)
Definition stripped (s : str) : Prop :=
  (∀ c, head s = Some c → is_space c = false) ∧
  (∀ c, last s = Some c → is_space c = false).

(** The copy the parser stores for a platform whose header occurs. *)
Definition copy_of (raw_text platform : str) : str :=
  let content_start := find raw_text (header platform) 0 + len (header platform) in
  let end_index :=
    if bool_decide (platform ≠ Pinterest)
    then find raw_text marker content_start
    else len raw_text in
  strip (slice raw_text content_start end_index).

(** A dictionary the parser can have produced for a draft: not empty, and
    with keys among the four platforms. *)
Definition good_draft (d : gmap str str) : Prop :=
  d ≠ ∅ ∧ ∀ p, is_Some (d !! p) → p ∈ platforms.

(** The dictionaries handed to [distribute_content_socialbu] in a trace. *)
Definition distributed (evs : list event) : list (gmap str str) :=
  omap (λ e, match e with CallDistribute d => Some d | _ => None end) evs.

(** The payloads posted in a trace. *)
Definition posted (evs : list event) : list payload :=
  omap (λ e, match e with HttpPost p => Some p | _ => None end) evs.

(** The prompts sent to Gemini in a trace. *)
Definition prompts (evs : list event) : list str :=
  omap (λ e, match e with Generate p => Some p | _ => None end) evs.

(** What holds of the state after any run of the bot. *)
Definition invariant (st : state) : Prop :=
  (∀ u d, user_draft_content st !! u = Some d → good_draft d) ∧
  Forall good_draft (distributed (trace st)) ∧
  Forall (λ p, ∃ key d, key ≠ [] ∧ good_draft d ∧ p = build_payload key d)
         (posted (trace st)) ∧
  (length (posted (trace st)) ≤ length (distributed (trace st)))%nat ∧
  (length (distributed (trace st)) + size (user_draft_content st)
   ≤ length (prompts (trace st)))%nat.

(** The page at [url] is fetched with a good status and parsed to [soup]. *)
Definition fetched (w : world) (url : str) (soup : page) : Prop :=
  ∃ resp, requests_get w url = Ok resp ∧ raise_for_status resp = Ok tt ∧
          body resp = Ok soup.

(** A world given by all its answers. *)
Definition custom_world (key : option str) (client : bool)
    (get : res (response page)) (generated : res (option str))
    (post : res (response json)) : world :=
  {| SOCIALBU_API_KEY := key;
     gemini_client := client;
     requests_get := λ _, get;
     generate_content := λ _, generated;
     requests_post := λ _, post;
     repr_container := λ _, [] |}.

(** * Properties *)

(** ** Evaluation of the string functions and the parser *)

Example find_ex1 : find (lit "abcabc") (lit "bc") 0 = 1.
Proof. reflexivity. Qed.
Example find_ex2 : find (lit "abcabc") (lit "bc") 2 = 4.
Proof. reflexivity. Qed.
Example find_ex3 : find (lit "abcabc") (lit "x") 0 = -1.
Proof. reflexivity. Qed.
Example slice_ex1 : slice (lit "abcdef") 2 (-1) = lit "cde".
Proof. reflexivity. Qed.
Example strip_ex1 : strip (lit "  a b  ") = lit "a b".
Proof. reflexivity. Qed.
Example split_ex1 : split (lit "  a  bc d ") = [lit "a"; lit "bc"; lit "d"].
Proof. reflexivity. Qed.
Example str_of_int_ex : str_of_int 42 = lit "42" /\ str_of_int (-7) = lit "-7" /\ str_of_int 0 = lit "0".
Proof. repeat split; reflexivity. Qed.

Example parse_ex1 :
  parse_sections (lit "## Facebook" ++ nl ++ lit "A" ++ nl ++ lit "## X (Twitter)" ++ nl ++ lit "B #tag" ++ nl
                  ++ lit "## LinkedIn" ++ nl ++ lit "C" ++ nl ++ lit "## Pinterest" ++ nl ++ lit "D" ++ nl)
  = <[Pinterest := lit "D"]> (<[LinkedIn := lit "C"]> (<[X_Twitter := lit "B #tag"]> {[Facebook := lit "A"]})).
Proof. vm_compute. reflexivity. Qed.

(** ** Searching and slicing *)

Section Search.

Implicit Types s sub r u : str.

Lemma startswith_app sub r : startswith (sub ++ r) sub = true.
Proof.
  induction sub as [|c sub IH]; simpl; [done|].
  by rewrite N.eqb_refl, IH.
Qed.

Lemma startswith_inv s sub : startswith s sub = true → ∃ r, s = sub ++ r.
Proof.
  revert s. induction sub as [|c sub IH]; intros s H; simpl in *.
  - by exists s.
  - destruct s as [|d s]; [done|].
    apply andb_true_iff in H as [Hc Hs].
    apply N.eqb_eq in Hc as ->.
    destruct (IH _ Hs) as [r ->]. by exists r.
Qed.

Lemma startswith_weaken s m x : startswith s (m ++ x) = true → startswith s m = true.
Proof.
  intros H. destruct (startswith_inv _ _ H) as [r ->].
  rewrite <- app_assoc. apply startswith_app.
Qed.

Lemma find_from_hit s sub i : startswith s sub = true → find_from s sub i = Some i.
Proof. intros H. destruct s; simpl in *; by rewrite H. Qed.

Lemma find_from_cons_ne c s sub i :
  startswith (c :: s) sub = false → find_from (c :: s) sub i = find_from s sub (S i).
Proof. intros H. cbn [find_from]. by rewrite H. Qed.

Lemma find_from_None_shift s sub i j :
  find_from s sub i = None → find_from s sub j = None.
Proof.
  revert i j. induction s as [|c s IH]; intros i j; cbn [find_from].
  - by destruct (startswith [] sub).
  - destruct (startswith (c :: s) sub); [done|]. apply IH.
Qed.

Lemma contains_cons_false c s sub :
  contains (c :: s) sub = false →
  startswith (c :: s) sub = false ∧ contains s sub = false.
Proof.
  unfold contains. cbn [find_from].
  destruct (startswith (c :: s) sub) eqn:E; [done|].
  intros H. split; [done|].
  destruct (find_from s sub 1) eqn:E1; [done|].
  by rewrite (find_from_None_shift _ _ _ 0%nat E1).
Qed.

(** An occurrence of ["## "] cannot begin inside [u] and end inside a
    text that itself begins with ["## "], unless it lies within [u]. *)
Lemma marker_no_straddle u r :
  u ≠ [] → startswith u marker = false → startswith r marker = true →
  startswith (u ++ r) marker = false.
Proof.
  intros Hu Hs Hr. destruct (startswith_inv _ _ Hr) as [r' ->].
  destruct u as [|a [|b [|c u]]]; [done| | |exact Hs].
  - cbn. by destruct (35 =? a)%N.
  - cbn. by destruct (35 =? a)%N, (35 =? b)%N.
Qed.

(** A text without ["## "] in front of a header is skipped by the search
    for any tag that begins with ["## "]. *)
Lemma find_from_skip u r sub i :
  contains u marker = false → startswith r marker = true →
  startswith sub marker = true →
  find_from (u ++ r) sub i = find_from r sub (length u + i).
Proof.
  intros Hu Hr Hsub. revert i.
  induction u as [|a u IH]; intros i; [done|].
  apply contains_cons_false in Hu as [Ha Hu].
  assert (startswith ((a :: u) ++ r) sub = false) as Hno.
  { destruct (startswith ((a :: u) ++ r) sub) eqn:E; [|done].
    destruct (startswith_inv _ _ Hsub) as [x ->].
    apply startswith_weaken in E.
    by rewrite marker_no_straddle in E. }
  cbn [app] in *. rewrite find_from_cons_ne by done.
  rewrite IH by done. f_equal. simpl. lia.
Qed.

Lemma find_0 s sub :
  find s sub 0 = match find_from s sub 0 with Some i => Z.of_nat i | None => -1 end.
Proof.
  unfold find. cbn.
  destruct (Z.ltb_spec (len s) 0) as [H|_]; [unfold len in H; lia|done].
Qed.

Lemma find_at p s sub :
  find (p ++ s) sub (len p)
  = match find_from s sub (length p) with Some i => Z.of_nat i | None => -1 end.
Proof.
  unfold find, len.
  destruct (Z.ltb_spec (Z.of_nat (length p)) 0) as [H|_]; [lia|].
  rewrite length_app.
  destruct (Z.ltb_spec (Z.of_nat (length p + length s)) (Z.of_nat (length p))) as [H|_]; [lia|].
  by rewrite Nat2Z.id, drop_app_length.
Qed.

Lemma slice_mid p a v : slice (p ++ a ++ v) (len p) (len p + len a) = a.
Proof.
  unfold slice, clip, len. rewrite !length_app.
  destruct (Z.ltb_spec (Z.of_nat (length p)) 0) as [H|_]; [lia|].
  destruct (Z.ltb_spec (Z.of_nat (length p) + Z.of_nat (length a)) 0) as [H|_]; [lia|].
  rewrite !Z.min_l by lia.
  replace (Z.to_nat _) with (length a) by lia.
  rewrite Nat2Z.id, drop_app_length. apply take_app_length.
Qed.

Lemma slice_to_end p a : slice (p ++ a) (len p) (len (p ++ a)) = a.
Proof.
  pose proof (slice_mid p a []) as H. rewrite app_nil_r in H.
  replace (len (p ++ a)) with (len p + len a); [done|].
  unfold len. rewrite length_app. lia.
Qed.

End Search.

(** ** The section parser *)

Section Parser.

Implicit Types raw u a v : str.
Implicit Types d : gmap str str.

(** A platform other than the last whose header is first found after [u]:
    its section is the text up to the next ["## "]. *)
Lemma parse_platform_inner u name a v d :
  name ≠ Pinterest →
  find_from (u ++ header name ++ a ++ v) (header name) 0 = Some (length u) →
  contains a marker = false → startswith v marker = true →
  parse_platform (u ++ header name ++ a ++ v) d name = <[name := strip a]> d.
Proof.
  intros Hname Hfind Ha Hv. unfold parse_platform. fold (header name).
  rewrite find_0, Hfind.
  rewrite bool_decide_true by lia. rewrite (bool_decide_true _ Hname).
  replace (Z.of_nat (length u) + len (header name)) with (len (u ++ header name))
    by (unfold len; rewrite length_app; lia).
  rewrite (app_assoc u (header name)).
  rewrite find_at, find_from_skip, find_from_hit by done.
  replace (Z.of_nat _) with (len (u ++ header name) + len a) by (unfold len; lia).
  by rewrite slice_mid.
Qed.

(** The last platform: its section runs to the end of the text. *)
Lemma parse_platform_last u a d :
  find_from (u ++ header Pinterest ++ a) (header Pinterest) 0 = Some (length u) →
  parse_platform (u ++ header Pinterest ++ a) d Pinterest = <[Pinterest := strip a]> d.
Proof.
  intros Hfind. unfold parse_platform. fold (header Pinterest).
  rewrite find_0, Hfind.
  rewrite bool_decide_true by lia. rewrite bool_decide_false by (intros H; by apply H).
  replace (Z.of_nat (length u) + len (header Pinterest)) with (len (u ++ header Pinterest))
    by (unfold len; rewrite length_app; lia).
  rewrite (app_assoc u (header Pinterest)).
  by rewrite slice_to_end.
Qed.

(** A platform whose header does not occur gets no key. *)
Lemma parse_platform_absent raw name d :
  contains raw (header name) = false → parse_platform raw d name = d.
Proof.
  unfold contains, parse_platform. fold (header name). rewrite find_0.
  destruct (find_from raw (header name) 0); [done|]. intros _.
  by rewrite bool_decide_false by (intros H; by apply H).
Qed.

End Parser.

(** Walks the search over the literal characters of a header and over
    bodies known to be free of ["## "], up to the header looked for. *)
Ltac scan :=
  repeat first
    [ rewrite find_from_cons_ne by reflexivity
    | rewrite find_from_skip by (assumption || reflexivity) ];
  rewrite find_from_hit by reflexivity.

Ltac find_header :=
  rewrite <- ?app_assoc;
  unfold header, marker, Facebook, X_Twitter, LinkedIn, Pinterest;
  cbn [app]; scan; f_equal;
  repeat (progress (rewrite ?length_app; cbn [length])); lia.

(** C1. A generated text that holds the four headers in the order
    Facebook, X (Twitter), LinkedIn, Pinterest, where the text before the
    first header and the bodies [A], [B], [C] of the first three sections
    reach up to the next ["## "] (they hold no ["## "] themselves), parses
    to the dictionary with exactly the four platforms, each mapped to its
    body with the whitespace at both ends stripped.  Each body starts
    right after its header; the Pinterest body [D] is all the text that
    follows its header. *)
Theorem parse_sections_all_four (pre A B C D : str) :
  contains pre marker = false →
  contains A marker = false →
  contains B marker = false →
  contains C marker = false →
  parse_sections
    (pre ++ header Facebook ++ A ++ header X_Twitter ++ B
         ++ header LinkedIn ++ C ++ header Pinterest ++ D)
  = <[Pinterest := strip D]>
      (<[LinkedIn := strip C]>
         (<[X_Twitter := strip B]>
            (<[Facebook := strip A]> ∅))).
Proof.
  intros Hpre HA HB HC.
  set (raw := pre ++ _).
  assert (∀ d, parse_platform raw d Facebook = <[Facebook := strip A]> d) as E1.
  { intros d. unfold raw. apply parse_platform_inner; [done| |done|done].
    find_header. }
  assert (∀ d, parse_platform raw d X_Twitter = <[X_Twitter := strip B]> d) as E2.
  { intros d.
    replace raw with ((pre ++ header Facebook ++ A) ++ header X_Twitter ++ B
                      ++ (header LinkedIn ++ C ++ header Pinterest ++ D))
      by (unfold raw; by rewrite <- !app_assoc).
    apply parse_platform_inner; [done| |done|done]. find_header. }
  assert (∀ d, parse_platform raw d LinkedIn = <[LinkedIn := strip C]> d) as E3.
  { intros d.
    replace raw with ((pre ++ header Facebook ++ A ++ header X_Twitter ++ B)
                      ++ header LinkedIn ++ C ++ (header Pinterest ++ D))
      by (unfold raw; by rewrite <- !app_assoc).
    apply parse_platform_inner; [done| |done|done]. find_header. }
  assert (∀ d, parse_platform raw d Pinterest = <[Pinterest := strip D]> d) as E4.
  { intros d.
    replace raw with ((pre ++ header Facebook ++ A ++ header X_Twitter ++ B
                           ++ header LinkedIn ++ C) ++ header Pinterest ++ D)
      by (unfold raw; by rewrite <- !app_assoc).
    apply parse_platform_last. find_header. }
  unfold parse_sections, platforms. cbn [foldl].
  by rewrite E1, E2, E3, E4.
Qed.

Lemma parse_sections_all_four_witness :
  let pre := lit "Here is your copy:" ++ nl in
  let A := nl ++ lit "Big sale, buy now!" ++ nl ++ nl in
  let B := nl ++ lit "Widget #deal ##sale" ++ nl ++ nl in
  let C := nl ++ lit "Business value." ++ nl ++ nl in
  let D := nl ++ lit "Pin it. ## Facebook again" ++ nl in
  (contains pre marker = false ∧ contains A marker = false ∧
   contains B marker = false ∧ contains C marker = false) ∧
  parse_sections
    (pre ++ header Facebook ++ A ++ header X_Twitter ++ B
         ++ header LinkedIn ++ C ++ header Pinterest ++ D)
  = <[Pinterest := lit "Pin it. ## Facebook again"]>
      (<[LinkedIn := lit "Business value."]>
         (<[X_Twitter := lit "Widget #deal ##sale"]>
            (<[Facebook := lit "Big sale, buy now!"]> ∅))).
Proof.
  intros pre A B C D.
  split; [by vm_compute|].
  exact (parse_sections_all_four pre A B C D eq_refl eq_refl eq_refl eq_refl).
Defined.

(** C2, at a text without the Pinterest header.  The Pinterest key is
    absent and Facebook and X (Twitter) parse to their bodies, but the
    LinkedIn section, which is the last one here, loses its last
    character: the search for the next ["## "] answers [-1], which the
    slice takes as "up to the last character", so the body [C] parses to
    the empty text. *)
Theorem parse_sections_no_pinterest :
  parse_sections no_pinterest_text !! Pinterest = None ∧
  parse_sections no_pinterest_text !! Facebook = Some (lit "A") ∧
  parse_sections no_pinterest_text !! X_Twitter = Some (lit "B") ∧
  find no_pinterest_text marker (len (lit "## Facebook" ++ nl ++ lit "A" ++ nl
        ++ lit "## X (Twitter)" ++ nl ++ lit "B" ++ nl ++ lit "## LinkedIn")) = -1 ∧
  parse_sections no_pinterest_text !! LinkedIn = Some [] ∧
  parse_sections no_pinterest_text !! LinkedIn ≠ Some (lit "C").
Proof. by vm_compute. Qed.

(** A missing header never yields a key, whatever the rest of the text. *)
Lemma parse_sections_absent_key (raw name : str) :
  name ∈ platforms → contains raw (header name) = false →
  parse_sections raw !! name = None.
Proof.
  intros Hin Hno.
  assert (∀ d other, d !! name = None → parse_platform raw d other !! name = None) as Hstep.
  { intros d other Hd. destruct (decide (other = name)) as [->|Hne].
    - by rewrite parse_platform_absent.
    - unfold parse_platform. case_bool_decide; [|done].
      by rewrite lookup_insert_ne. }
  unfold parse_sections, platforms. cbn [foldl].
  by repeat apply Hstep.
Qed.

(** When it is the LinkedIn header that is missing, the three other
    sections parse to their bodies: each of them is followed by a header
    or is the last one. *)
Lemma parse_sections_without_linkedin (pre A B D : str) :
  contains pre marker = false →
  contains A marker = false →
  contains B marker = false →
  contains (pre ++ header Facebook ++ A ++ header X_Twitter ++ B
                ++ header Pinterest ++ D) (header LinkedIn) = false →
  parse_sections
    (pre ++ header Facebook ++ A ++ header X_Twitter ++ B ++ header Pinterest ++ D)
  = <[Pinterest := strip D]>
      (<[X_Twitter := strip B]>
         (<[Facebook := strip A]> ∅)).
Proof.
  intros Hpre HA HB. set (raw := pre ++ _). intros Hno.
  assert (∀ d, parse_platform raw d Facebook = <[Facebook := strip A]> d) as E1.
  { intros d. unfold raw. apply parse_platform_inner; [done| |done|done].
    find_header. }
  assert (∀ d, parse_platform raw d X_Twitter = <[X_Twitter := strip B]> d) as E2.
  { intros d.
    replace raw with ((pre ++ header Facebook ++ A) ++ header X_Twitter ++ B
                      ++ (header Pinterest ++ D))
      by (unfold raw; by rewrite <- !app_assoc).
    apply parse_platform_inner; [done| |done|done]. find_header. }
  assert (∀ d, parse_platform raw d Pinterest = <[Pinterest := strip D]> d) as E4.
  { intros d.
    replace raw with ((pre ++ header Facebook ++ A ++ header X_Twitter ++ B)
                      ++ header Pinterest ++ D)
      by (unfold raw; by rewrite <- !app_assoc).
    apply parse_platform_last. find_header. }
  unfold parse_sections, platforms. cbn [foldl].
  by rewrite E1, E2, (parse_platform_absent raw LinkedIn), E4.
Qed.

(** ** The draft dictionary *)

Lemma take_lookup (s s' : Z) (drafts : gmap Z (gmap str str)) :
  (take_draft s drafts).2 !! s' = if decide (s = s') then None else drafts !! s'.
Proof.
  unfold take_draft. destruct (drafts !! s) eqn:E; cbn.
  - rewrite lookup_delete. by case_decide.
  - case_decide; by subst.
Qed.

Lemma foldl_apply_op_None (s : Z) (ops : list store_op) (drafts : gmap Z (gmap str str)) :
  forallb (λ o, negb (puts_for s o)) ops = true →
  drafts !! s = None → foldl apply_op drafts ops !! s = None.
Proof.
  revert drafts. induction ops as [|o ops IH]; intros drafts Hops Hs; [done|].
  cbn in Hops. apply andb_true_iff in Hops as [Ho Hops].
  cbn [foldl]. apply IH; [done|].
  destruct o as [u g|u]; cbn in *.
  - unfold put_draft. apply negb_true_iff, bool_decide_eq_false in Ho.
    by rewrite lookup_insert_ne.
  - rewrite take_lookup. by case_decide.
Qed.

(** C3. After [put_draft s m1] and [put_draft s m2], [take_draft s] gives
    exactly [m2]; in a dictionary built from the empty one by any history
    without a put for [s], [take_draft s] finds nothing; and a second
    [take_draft s] right after a first finds nothing. *)
Theorem draft_store_put_take (s : Z) (m1 m2 : gmap str str)
    (drafts : gmap Z (gmap str str)) :
  (take_draft s (put_draft s m2 (put_draft s m1 drafts))).1 = Some m2 ∧
  (∀ ops, forallb (λ o, negb (puts_for s o)) ops = true →
          (take_draft s (run_ops ops)).1 = None) ∧
  (take_draft s (take_draft s drafts).2).1 = None.
Proof.
  split; [|split].
  - unfold take_draft, put_draft. by rewrite lookup_insert_eq.
  - intros ops Hops. unfold take_draft, run_ops.
    by rewrite (foldl_apply_op_None s ops ∅ Hops).
  - unfold take_draft at 1. rewrite take_lookup. by case_decide.
Qed.

Lemma draft_store_put_take_witness :
  let m1 : gmap str str := {[Facebook := lit "old"]} in
  let m2 : gmap str str := {[X_Twitter := lit "new"]} in
  let ops := [Put 8 m1; Take 7; Put 9 m2; Take 8] in
  forallb (λ o, negb (puts_for 7 o)) ops = true ∧
  (take_draft 7 (put_draft 7 m2 (put_draft 7 m1 ∅))).1 = Some m2 ∧
  (take_draft 7 (run_ops ops)).1 = None ∧
  (take_draft 7 (take_draft 7 (put_draft 7 m1 ∅)).2).1 = None.
Proof.
  intros m1 m2 ops.
  destruct (draft_store_put_take 7 m1 m2 ∅) as [H1 [H2 _]].
  destruct (draft_store_put_take 7 m1 m2 (put_draft 7 m1 ∅)) as [_ [_ H3]].
  split; [reflexivity|]. split; [exact H1|]. split; [|exact H3].
  apply H2. reflexivity.
Defined.

(** ** The handlers *)

(** C4. When no draft is stored for the user, [/approve] sends the one
    reply that nothing waits for approval; the dictionary is unchanged and
    neither [distribute_content_socialbu] is called nor a request is
    posted. *)
Theorem approve_without_draft (w : world) (user_id : Z) (st : state) :
  user_draft_content st !! user_id = None →
  ∃ evs, approve_command w user_id st = (Ok tt, after st evs) ∧
         evs = [Reply nothing_to_approve_msg] ∧
         existsb is_distribution evs = false.
Proof.
  intros Hnone. exists [Reply nothing_to_approve_msg].
  split; [|done].
  unfold approve_command, bind, store_take, take_draft. by rewrite Hnone.
Qed.

(** C9. A message that does not start with [http] gets the one reply
    that it is not a valid URL; [scrape_product_details] is not called, no
    page is requested, and the drafts of all users stay as they were. *)
Theorem url_message_rejects_non_url (w : world) (user_id : Z) (url : str) (st : state) :
  startswith url (lit "http") = false →
  ∃ evs, url_message w user_id url st = (Ok tt, after st evs) ∧
         evs = [Reply invalid_url_msg] ∧
         existsb is_extraction evs = false ∧
         (∀ u, user_draft_content (url_message w user_id url st).2 !! u
               = user_draft_content st !! u).
Proof.
  intros Hno. exists [Reply invalid_url_msg].
  assert (url_message w user_id url st = (Ok tt, after st [Reply invalid_url_msg])) as E.
  { unfold url_message. by rewrite Hno. }
  rewrite E. done.
Qed.

(** ** Computations that only add events *)

Section Runs.

Context {A B : Type}.

Lemma after_nil st : after st [] = st.
Proof. destruct st. unfold after. cbn. by rewrite app_nil_r. Qed.

Lemma after_after st evs evs' : after (after st evs) evs' = after st (evs ++ evs').
Proof. unfold after. cbn. by rewrite app_assoc. Qed.

Lemma runs_ret (a : A) : runs (ret a) (Ok a) [].
Proof. intros st. by rewrite after_nil. Qed.

Lemma runs_raise e : runs (raise (A:=A) e) (Raise e) [].
Proof. intros st. by rewrite after_nil. Qed.

Lemma runs_lift (r : res A) : runs (lift r) r [].
Proof. intros st. by rewrite after_nil. Qed.

Lemma runs_emit e : runs (emit e) (Ok tt) [e].
Proof. by intros st. Qed.

Lemma runs_bind (m : M A) (f : A → M B) a r evs evs' :
  runs m (Ok a) evs → runs (f a) r evs' → runs (bind m f) r (evs ++ evs').
Proof.
  intros Hm Hf st. unfold bind. by rewrite Hm, Hf, after_after.
Qed.

Lemma runs_bind_raise (m : M A) (f : A → M B) e evs :
  runs m (Raise e) evs → runs (bind m f) (Raise e) evs.
Proof. intros Hm st. unfold bind. by rewrite Hm. Qed.

Lemma runs_try_ok (m : M A) h a evs :
  runs m (Ok a) evs → runs (try_except m h) (Ok a) evs.
Proof. intros Hm st. unfold try_except. by rewrite Hm. Qed.

Lemma runs_try_raise (m : M A) h e r evs evs' :
  runs m (Raise e) evs → runs (h e) r evs' →
  runs (try_except m h) r (evs ++ evs').
Proof.
  intros Hm Hh st. unfold try_except. by rewrite Hm, Hh, after_after.
Qed.

End Runs.

Lemma runs_call {A} e (r : res A) : runs (call e r) r [e].
Proof. intros st. unfold call, bind, emit, lift. by destruct r. Qed.

Ltac run_step :=
  unfold after; cbn; rewrite <- ?app_assoc; cbn; try reflexivity.

(** The three helper functions catch what they raise: each answers with
    a value, and none touches the drafts. *)

Lemma scrape_product_details_runs w url :
  runs (scrape_product_details w url) (Ok (scrape_result w url))
       [CallScrape url; HttpGet url].
Proof.
  intros st.
  unfold scrape_product_details, scrape_result, bind, try_except, call, emit, lift, ret.
  cbn -[raise_for_status details_of_page].
  destruct (requests_get w url) as [resp|e]; [|by destruct e; run_step].
  destruct (raise_for_status resp) as [[]|e]; [|by destruct e; run_step].
  destruct (body resp) as [soup|e]; [|by destruct e; run_step].
  run_step.
Qed.

Lemma generate_sales_copy_runs w pd :
  runs (generate_sales_copy w pd) (Ok (generate_result w pd)) (generate_events w pd).
Proof.
  intros st.
  unfold generate_sales_copy, generate_result, generate_events,
    bind, try_except, call, emit, lift, ret, raise.
  cbn -[prompt_of parse_sections].
  destruct (gemini_client w); cbn -[prompt_of parse_sections]; [|run_step].
  destruct (generate_content w (prompt_of pd)) as [[raw|]|e];
    [| |destruct e]; unfold after; cbn -[prompt_of parse_sections];
    by rewrite <- ?app_assoc.
Qed.

(** What [url_message] does with a message that starts with [http], in
    terms of what the two helpers answer. *)
Lemma url_message_http w user_id url st :
  startswith url (lit "http") = true →
  url_message w user_id url st =
  match scrape_result w url with
  | None => (Ok tt, after st (scrape_events url ++ [Reply scrape_failed_msg]))
  | Some pd =>
      if contains (pd_description pd) description_not_found
      then (Ok tt, after st (scrape_events url ++ [Reply scrape_failed_msg]))
      else
        let evs := scrape_events url ++ generate_events w pd in
        match generate_result w pd with
        | (generated_markdown, None) =>
            (Ok tt, after st (evs ++ [Reply (generation_failed_msg generated_markdown)]))
        | (generated_markdown, Some generated_dict) =>
            if bool_decide (generated_dict = ∅)
            then (Ok tt, after st (evs ++ [Reply (generation_failed_msg generated_markdown)]))
            else (Ok tt,
                  {| user_draft_content := put_draft user_id generated_dict (user_draft_content st);
                     trace := trace st ++ evs ++ [Reply (response_text pd generated_markdown)] |})
        end
  end.
Proof.
  intros Hhttp. unfold url_message. rewrite Hhttp. cbn [negb].
  unfold bind at 1. unfold reply_text at 1. rewrite runs_emit.
  unfold bind at 1. rewrite scrape_product_details_runs, after_after.
  destruct (scrape_result w url) as [pd|];
    [|unfold reply_text; by rewrite runs_emit, after_after].
  destruct (contains (pd_description pd) description_not_found);
    [unfold reply_text; by rewrite runs_emit, after_after|].
  unfold bind at 1. rewrite generate_sales_copy_runs, after_after.
  destruct (generate_result w pd) as [md [d|]];
    [|unfold reply_text; by rewrite runs_emit, after_after, <- !app_assoc].
  case_bool_decide;
    [unfold reply_text; by rewrite runs_emit, after_after, <- !app_assoc|].
  unfold bind, store_put, reply_text, emit, after. cbn -[put_draft].
  by rewrite <- !app_assoc.
Qed.

(** Brings the traces of both sides to one shape. *)
Ltac norm_trace :=
  unfold scrape_events, after, put_draft;
  cbn [trace user_draft_content fst snd];
  rewrite <- ?app_assoc; cbn [app].

Lemma scrape_product_details_inv w url st pd st1 :
  scrape_product_details w url st = (Ok (Some pd), st1) →
  scrape_result w url = Some pd ∧ st1 = after st [CallScrape url; HttpGet url].
Proof. rewrite scrape_product_details_runs. intros [= -> <-]. done. Qed.

Lemma parse_sections_no_header raw :
  forallb (λ p, negb (contains raw (header p))) platforms = true →
  parse_sections raw = ∅.
Proof.
  cbn [forallb platforms]. rewrite !andb_true_iff, !negb_true_iff.
  intros (HF & HX & HL & HP & _).
  unfold parse_sections, platforms. cbn [foldl].
  by rewrite !parse_platform_absent.
Qed.

(** C5, as amended.  When the message starts with [http], the scraper
    returns product details and their description does not contain
    ["Description Not Found"], the handler calls [generate_sales_copy];
    and when that returns the text with a dictionary that is not empty,
    the handler stores the dictionary as the user's draft and ends with
    one reply, which holds the whole generated text and closes with the
    prompt to [/approve]. *)
Theorem url_message_generates_and_stores (w : world) (user_id : Z) (url : str)
    (st st1 : state) (pd : product_details) :
  startswith url (lit "http") = true →
  scrape_product_details w url (after st [Reply received_msg]) = (Ok (Some pd), st1) →
  contains (pd_description pd) description_not_found = false →
  ∃ generated evs,
    generate_sales_copy w pd st1 = (Ok generated, after st1 evs) ∧
    head evs = Some (CallGenerate pd) ∧
    (∃ rest, trace (url_message w user_id url st).2 = trace st1 ++ evs ++ rest) ∧
    ∀ raw_text generated_dict,
      generated = (raw_text, Some generated_dict) → generated_dict ≠ ∅ →
      url_message w user_id url st
      = (Ok tt, {| user_draft_content := <[user_id := generated_dict]> (user_draft_content st);
                   trace := trace st1 ++ evs ++ [Reply (response_text pd raw_text)] |}) ∧
      ∃ before between,
        response_text pd raw_text = before ++ raw_text ++ between ++ approve_prompt.
Proof.
  intros Hhttp Hscrape Hdesc.
  apply scrape_product_details_inv in Hscrape as [Hres ->].
  exists (generate_result w pd), (generate_events w pd).
  split; [apply generate_sales_copy_runs|].
  split; [done|].
  rewrite (url_message_http w user_id url st Hhttp), Hres, Hdesc.
  cbn zeta. split.
  - destruct (generate_result w pd) as [md [d|]]; [case_bool_decide|];
      eexists; norm_trace; reflexivity.
  - intros raw d -> Hd. rewrite bool_decide_false by done.
    split; [by norm_trace|].
    exists ([226; 339; 8230]%N ++ lit " **Content Draft Ready!**" ++ nl ++ nl
            ++ lit "**Product:** " ++ pd_title pd ++ nl
            ++ lit "**Source:** " ++ pd_url pd ++ nl ++ nl
            ++ lit "--- **Review Content** ---" ++ nl ++ nl),
           (nl ++ nl ++ lit "--- **Action** ---" ++ nl ++ nl).
    unfold response_text. rewrite <- !app_assoc. reflexivity.
Qed.

(** C10. When the Gemini call returns a text that holds none of the four
    headers, [generate_sales_copy] returns that text with the empty
    dictionary; [url_message] then answers ["Content generation failed: "]
    followed by the whole text, and leaves the drafts as they were. *)
Theorem url_message_no_headers (w : world) (user_id : Z) (url : str)
    (st st1 : state) (pd : product_details) (raw_text : str) :
  gemini_client w = true →
  generate_content w (prompt_of pd) = Ok (Some raw_text) →
  forallb (λ p, negb (contains raw_text (header p))) platforms = true →
  generate_sales_copy w pd st1
  = (Ok (raw_text, Some ∅), after st1 [CallGenerate pd; Generate (prompt_of pd)]) ∧
  (startswith url (lit "http") = true →
   scrape_product_details w url (after st [Reply received_msg]) = (Ok (Some pd), st1) →
   contains (pd_description pd) description_not_found = false →
   url_message w user_id url st
   = (Ok tt, after st (scrape_events url
                       ++ [CallGenerate pd; Generate (prompt_of pd);
                           Reply (generation_failed_msg raw_text)])) ∧
   generation_failed_msg raw_text = [226; 338]%N ++ lit " Content generation failed: " ++ raw_text ∧
   user_draft_content (url_message w user_id url st).2 = user_draft_content st).
Proof.
  intros Hclient Hgen Hnone.
  assert (generate_result w pd = (raw_text, Some ∅)) as Hres.
  { unfold generate_result. by rewrite Hclient, Hgen, parse_sections_no_header. }
  assert (generate_events w pd = [CallGenerate pd; Generate (prompt_of pd)]) as Hevs.
  { unfold generate_events. by rewrite Hclient. }
  split.
  - by rewrite generate_sales_copy_runs, Hres, Hevs.
  - intros Hhttp Hscrape Hdesc.
    apply scrape_product_details_inv in Hscrape as [Hsr ->].
    rewrite (url_message_http w user_id url st Hhttp), Hsr, Hdesc, Hres, Hevs.
    by rewrite bool_decide_true by done.
Qed.

(** ** The handlers on sample worlds *)

Lemma approve_without_draft_witness :
  user_draft_content (with_drafts {[8 := ∅]}) !! 7 = None ∧
  ∃ evs, approve_command (sample_world widget_page four_sections posted_ok) 7
           (with_drafts {[8 := ∅]})
         = (Ok tt, after (with_drafts {[8 := ∅]}) evs) ∧
         evs = [Reply nothing_to_approve_msg] ∧
         existsb is_distribution evs = false.
Proof.
  split; [reflexivity|].
  apply (approve_without_draft (sample_world widget_page four_sections posted_ok) 7
           (with_drafts {[8 := ∅]})).
  reflexivity.
Defined.

Lemma url_message_rejects_non_url_witness :
  let w := sample_world widget_page four_sections posted_ok in
  let st := with_drafts {[7 := {[Facebook := lit "old"]}]} in
  startswith (lit "www.example.com") (lit "http") = false ∧
  ∃ evs, url_message w 7 (lit "www.example.com") st = (Ok tt, after st evs) ∧
         evs = [Reply invalid_url_msg] ∧
         existsb is_extraction evs = false ∧
         (∀ u, user_draft_content (url_message w 7 (lit "www.example.com") st).2 !! u
               = user_draft_content st !! u).
Proof.
  intros w st. split; [reflexivity|].
  apply (url_message_rejects_non_url w 7 (lit "www.example.com") st).
  reflexivity.
Defined.

(** C5 as stated fails twice.  On a page without a description block the
    scraper returns product details (with the sentinel description), yet
    the handler does not call the generator.  And when Gemini writes a
    text without any of the headers, generation returns that text and a
    dictionary, yet the handler stores no draft and replies with a
    failure. *)
Lemma url_message_guards_counterexample :
  let w1 := sample_world page_without_description four_sections posted_ok in
  let w2 := sample_world widget_page (lit "Sorry, no copy today.") posted_ok in
  let st := with_drafts ∅ in
  (startswith sample_url (lit "http") = true ∧
   (∃ pd, (scrape_product_details w1 sample_url (after st [Reply received_msg])).1
          = Ok (Some pd)) ∧
   existsb is_generation (trace (url_message w1 7 sample_url st).2) = false) ∧
  (∃ pd st1 st2 raw_text generated_dict,
     (scrape_product_details w2 sample_url (after st [Reply received_msg])) = (Ok (Some pd), st1) ∧
     generate_sales_copy w2 pd st1 = (Ok (raw_text, Some generated_dict), st2) ∧
     user_draft_content (url_message w2 7 sample_url st).2 !! 7 = None ∧
     last (trace (url_message w2 7 sample_url st).2)
     = Some (Reply (generation_failed_msg raw_text))).
Proof.
  intros w1 w2 st. split.
  - split; [reflexivity|]. split; [eexists; vm_compute; reflexivity|].
    vm_compute. reflexivity.
  - do 5 eexists. split; [vm_compute; reflexivity|].
    split; [vm_compute; reflexivity|].
    split; vm_compute; reflexivity.
Qed.

Lemma url_message_generates_and_stores_witness :
  let w := sample_world widget_page four_sections posted_ok in
  let st := with_drafts ∅ in
  let pd := details_of_page sample_url widget_page in
  let st1 := after (after st [Reply received_msg]) [CallScrape sample_url; HttpGet sample_url] in
  (startswith sample_url (lit "http") = true ∧
   scrape_product_details w sample_url (after st [Reply received_msg]) = (Ok (Some pd), st1) ∧
   contains (pd_description pd) description_not_found = false) ∧
  ∃ generated evs,
    generate_sales_copy w pd st1 = (Ok generated, after st1 evs) ∧
    head evs = Some (CallGenerate pd) ∧
    (∃ rest, trace (url_message w 7 sample_url st).2 = trace st1 ++ evs ++ rest) ∧
    ∀ raw_text generated_dict,
      generated = (raw_text, Some generated_dict) → generated_dict ≠ ∅ →
      url_message w 7 sample_url st
      = (Ok tt, {| user_draft_content := <[7 := generated_dict]> (user_draft_content st);
                   trace := trace st1 ++ evs ++ [Reply (response_text pd raw_text)] |}) ∧
      ∃ before between,
        response_text pd raw_text = before ++ raw_text ++ between ++ approve_prompt.
Proof.
  intros w st pd st1.
  assert (scrape_product_details w sample_url (after st [Reply received_msg])
          = (Ok (Some pd), st1)) as Hscrape by (vm_compute; reflexivity).
  split; [split; [reflexivity|split; [exact Hscrape|vm_compute; reflexivity]]|].
  apply (url_message_generates_and_stores w 7 sample_url st st1 pd);
    [reflexivity|exact Hscrape|vm_compute; reflexivity].
Defined.

Example url_message_sample_draft :
  let w := sample_world widget_page four_sections posted_ok in
  user_draft_content (url_message w 7 sample_url (with_drafts ∅)).2 !! 7
  = Some (<[Pinterest := lit "D"]> (<[LinkedIn := lit "C"]>
            (<[X_Twitter := lit "B"]> {[Facebook := lit "A"]}))) ∧
  pd_title (details_of_page sample_url widget_page) = lit "Widget" ∧
  pd_description (details_of_page sample_url widget_page) = lit "Great widget".
Proof. vm_compute. done. Qed.

Lemma url_message_no_headers_witness :
  let raw_text := lit "Sorry, no copy today." in
  let w := sample_world widget_page raw_text posted_ok in
  let st := with_drafts {[7 := {[Facebook := lit "old"]}]} in
  let pd := details_of_page sample_url widget_page in
  let st1 := after (after st [Reply received_msg]) [CallScrape sample_url; HttpGet sample_url] in
  (gemini_client w = true ∧
   generate_content w (prompt_of pd) = Ok (Some raw_text) ∧
   forallb (λ p, negb (contains raw_text (header p))) platforms = true ∧
   startswith sample_url (lit "http") = true ∧
   scrape_product_details w sample_url (after st [Reply received_msg]) = (Ok (Some pd), st1) ∧
   contains (pd_description pd) description_not_found = false) ∧
  generate_sales_copy w pd st1
  = (Ok (raw_text, Some ∅), after st1 [CallGenerate pd; Generate (prompt_of pd)]) ∧
  url_message w 7 sample_url st
  = (Ok tt, after st (scrape_events sample_url
                      ++ [CallGenerate pd; Generate (prompt_of pd);
                          Reply (generation_failed_msg raw_text)])) ∧
  user_draft_content (url_message w 7 sample_url st).2 = user_draft_content st.
Proof.
  intros raw_text w st pd st1.
  assert (scrape_product_details w sample_url (after st [Reply received_msg])
          = (Ok (Some pd), st1)) as Hscrape by (vm_compute; reflexivity).
  assert (contains (pd_description pd) description_not_found = false) as Hdesc
    by (vm_compute; reflexivity).
  assert (forallb (λ p, negb (contains raw_text (header p))) platforms = true) as Hnone
    by (vm_compute; reflexivity).
  destruct (url_message_no_headers w 7 sample_url st st1 pd raw_text
              eq_refl eq_refl Hnone) as [Hgen Hmsg].
  destruct (Hmsg eq_refl Hscrape Hdesc) as (Hrun & _ & Hdrafts).
  split; [by repeat (split; [done|])|].
  split; [exact Hgen|]. split; [exact Hrun|exact Hdrafts].
Defined.

(** ** The distributor *)

Lemma distribute_content_socialbu_runs w content_dict :
  runs (distribute_content_socialbu w content_dict)
       (Ok (distribute_result w content_dict)) (distribute_events w content_dict).
Proof.
  intros st.
  unfold distribute_content_socialbu, distribute_result, distribute_events, read_response.
  unfold bind at 1. rewrite runs_emit.
  destruct (SOCIALBU_API_KEY w) as [[|c key]|];
    [by rewrite runs_ret, after_after..| |by rewrite runs_ret, after_after].
  set (p := build_payload (c :: key) content_dict).
  unfold try_except, bind at 1. rewrite runs_call, after_after.
  destruct (requests_post w p) as [resp|e]; [|by destruct e].
  unfold bind, lift, ret, res_bind.
  destruct (raise_for_status resp) as [[]|e]; [|by destruct e].
  destruct (body resp) as [v|e]; [|by destruct e].
  destruct (json_get v (lit "status") JNull) as [status|e]; [|by destruct e].
  destruct (json_eq_str status (lit "success")).
  - destruct (json_get v (lit "data") (JDict [])) as [data|e]; [|by destruct e].
    destruct (json_get data (lit "post_id") JNull) as [post_id|e]; [|by destruct e].
    done.
  - destruct (json_get v (lit "message") (JStr (lit "Unknown error"))) as [m|e];
      [|by destruct e].
    done.
Qed.

Lemma distribute_with_key w content_dict key st :
  SOCIALBU_API_KEY w = Some key → key ≠ [] →
  distribute_content_socialbu w content_dict st
  = (Ok (except_distribution
           (res_bind (requests_post w (build_payload key content_dict)) (read_response w))),
     after st [CallDistribute content_dict; HttpPost (build_payload key content_dict)]).
Proof.
  intros Hkey Hne. rewrite distribute_content_socialbu_runs.
  unfold distribute_result, distribute_events. rewrite Hkey.
  by destruct key.
Qed.

(** C7. With a key configured, the distributor posts exactly one
    payload.  Its text is the fixed opening line followed by the Facebook
    entry and the X (Twitter) entry, so it contains both; it is the same
    for any dictionary with these two entries, whatever its LinkedIn and
    Pinterest entries are.  The payload names the profiles 123, 456 and
    789, asks for the schedule ["now"] and carries no media. *)
Theorem distribute_payload (w : world) (key : str) (content_dict : gmap str str)
    (st : state) :
  SOCIALBU_API_KEY w = Some key → key ≠ [] →
  let p := build_payload key content_dict in
  (∃ message, distribute_content_socialbu w content_dict st
              = (Ok message, after st [CallDistribute content_dict; HttpPost p])) ∧
  content p = lit "Multi-platform content generated by Content Forge Bot:" ++ nl ++ nl
              ++ dict_get content_dict Facebook ++ nl ++ nl
              ++ dict_get content_dict X_Twitter ∧
  (∃ a b, content p = a ++ dict_get content_dict Facebook ++ b) ∧
  (∃ a, content p = a ++ dict_get content_dict X_Twitter) ∧
  (∀ other : gmap str str,
     dict_get other Facebook = dict_get content_dict Facebook →
     dict_get other X_Twitter = dict_get content_dict X_Twitter →
     build_payload key other = p) ∧
  (∀ linkedin pinterest,
     build_payload key (<[LinkedIn := linkedin]> (<[Pinterest := pinterest]> content_dict)) = p) ∧
  api_key p = key ∧
  platform_ids p = [123; 456; 789] ∧
  schedule_time p = lit "now" ∧
  media_urls p = [].
Proof.
  intros Hkey Hne p.
  assert (∀ other : gmap str str,
            dict_get other Facebook = dict_get content_dict Facebook →
            dict_get other X_Twitter = dict_get content_dict X_Twitter →
            build_payload key other = p) as Hsame.
  { intros other HF HX. unfold p, build_payload, consolidated. by rewrite HF, HX. }
  split; [eexists; by apply distribute_with_key|].
  split; [done|].
  split.
  { exists (lit "Multi-platform content generated by Content Forge Bot:" ++ nl ++ nl),
           (nl ++ nl ++ dict_get content_dict X_Twitter).
    unfold p, build_payload, consolidated. cbn [content].
    rewrite <- !app_assoc. reflexivity. }
  split.
  { exists (lit "Multi-platform content generated by Content Forge Bot:" ++ nl ++ nl
            ++ dict_get content_dict Facebook ++ nl ++ nl).
    unfold p, build_payload, consolidated. cbn [content].
    rewrite <- !app_assoc. reflexivity. }
  split; [exact Hsame|].
  split; [|done].
  intros linkedin pinterest.
  apply Hsame; unfold dict_get; f_equal;
    rewrite !lookup_insert_ne; first [reflexivity | by vm_compute].
Qed.

Lemma distribute_payload_witness :
  let w := sample_world widget_page four_sections posted_ok in
  let d : gmap str str :=
    <[Pinterest := lit "D"]> (<[LinkedIn := lit "C"]>
      (<[X_Twitter := lit "B"]> {[Facebook := lit "A"]})) in
  let p := build_payload (lit "secret") d in
  (SOCIALBU_API_KEY w = Some (lit "secret") ∧ lit "secret" ≠ []) ∧
  (∃ message, distribute_content_socialbu w d (with_drafts ∅)
              = (Ok message, after (with_drafts ∅) [CallDistribute d; HttpPost p])) ∧
  content p = lit "Multi-platform content generated by Content Forge Bot:" ++ nl ++ nl
              ++ lit "A" ++ nl ++ nl ++ lit "B" ∧
  build_payload (lit "secret") (<[LinkedIn := lit "other"]> (<[Pinterest := []]> d)) = p.
Proof.
  intros w d p.
  assert (lit "secret" ≠ []) as Hne by (by vm_compute).
  destruct (distribute_payload w (lit "secret") d (with_drafts ∅) eq_refl Hne)
    as (Hrun & Hcontent & _ & _ & _ & Hother & _).
  split; [done|]. split; [exact Hrun|]. split; [exact Hcontent|].
  apply Hother.
Defined.

Lemma json_eq_str_true v s : json_eq_str v s = true ↔ v = JStr s.
Proof.
  destruct v; cbn; try (split; [discriminate|discriminate]).
  rewrite bool_decide_eq_true. split; [by intros ->|by intros [= ->]].
Qed.

(** C8. [distribute_content_socialbu] always returns a message.  Without
    a key (unset or empty) it returns the key-missing message and posts
    nothing.  With a key: a response whose status is ["success"] yields a
    message that contains the post id of its data; a response with any
    other status yields a message that contains its error text; and a
    [RequestException], raised by the post or for the HTTP status, yields
    the network-failure message, which differs from every other message
    of the function. *)
Theorem distribute_reports (w : world) (content_dict : gmap str str) (st : state) :
  (∃ message evs, distribute_content_socialbu w content_dict st = (Ok message, after st evs)) ∧
  (SOCIALBU_API_KEY w = None ∨ SOCIALBU_API_KEY w = Some [] →
   distribute_content_socialbu w content_dict st
   = (Ok key_missing_msg, after st [CallDistribute content_dict])) ∧
  (∀ key, SOCIALBU_API_KEY w = Some key → key ≠ [] →
     let p := build_payload key content_dict in
     (∀ resp ms ds post_id,
        requests_post w p = Ok resp → raise_for_status resp = Ok tt →
        body resp = Ok (JDict ms) →
        members_get ms (lit "status") = Some (JStr (lit "success")) →
        members_get ms (lit "data") = Some (JDict ds) →
        members_get ds (lit "post_id") = Some post_id →
        (distribute_content_socialbu w content_dict st).1
        = Ok (lit "Content successfully distributed via SocialBu! (Post ID: "
              ++ format w post_id ++ lit ").")) ∧
     (∀ resp ms message,
        requests_post w p = Ok resp → raise_for_status resp = Ok tt →
        body resp = Ok (JDict ms) →
        members_get ms (lit "status") ≠ Some (JStr (lit "success")) →
        members_get ms (lit "message") = Some message →
        (distribute_content_socialbu w content_dict st).1
        = Ok (lit "SocialBu API reported an error: " ++ format w message)) ∧
     (∀ e, res_bind (requests_post w p) raise_for_status = Raise (RequestException e) →
        (distribute_content_socialbu w content_dict st).1 = Ok (network_error_msg e))) ∧
  (∀ e x, network_error_msg e ≠ key_missing_msg ∧
          network_error_msg e ≠ distributed_msg x ∧
          network_error_msg e ≠ reported_error_msg x ∧
          network_error_msg e ≠ distribution_error_msg).
Proof.
  split; [eexists _, _; apply distribute_content_socialbu_runs|].
  split.
  { intros Hkey. rewrite distribute_content_socialbu_runs.
    unfold distribute_result, distribute_events. by destruct Hkey as [-> | ->]. }
  split; [|by intros e x; repeat split].
  intros key Hkey Hne p.
  rewrite (distribute_with_key w content_dict key st Hkey Hne). fold p.
  cbn [fst]. split; [|split].
  - intros resp ms ds post_id -> Hst Hbody Hstatus Hdata Hid.
    unfold res_bind at 1, read_response. rewrite Hst, Hbody.
    cbn [res_bind json_get]. rewrite Hstatus, Hdata.
    cbn [from_option id res_bind json_get]. rewrite Hid.
    cbn [from_option id res_bind].
    rewrite (proj2 (json_eq_str_true _ _) eq_refl). reflexivity.
  - intros resp ms message -> Hst Hbody Hstatus Hmsg.
    unfold res_bind at 1, read_response. rewrite Hst, Hbody.
    cbn [res_bind json_get]. rewrite Hmsg. cbn [from_option id].
    destruct (json_eq_str _ _) eqn:E; [|reflexivity].
    apply json_eq_str_true in E.
    destruct (members_get ms (lit "status")) as [v|]; [|discriminate].
    cbn in E. by subst.
  - intros e He. unfold res_bind in *.
    destruct (requests_post w p) as [resp|e']; [|by injection He as ->].
    unfold read_response. by rewrite He.
Qed.

Lemma distribute_reports_witness :
  let d : gmap str str := {[Facebook := lit "A"]} in
  let st := with_drafts ∅ in
  let secret := Some (lit "secret") in
  distribute_content_socialbu (post_world None (Ok (ok_response posted_ok))) d st
  = (Ok key_missing_msg, after st [CallDistribute d]) ∧
  (distribute_content_socialbu (post_world secret (Ok (ok_response posted_ok))) d st).1
  = Ok (lit "Content successfully distributed via SocialBu! (Post ID: 42).") ∧
  (distribute_content_socialbu (post_world secret (Ok (ok_response posted_error))) d st).1
  = Ok (lit "SocialBu API reported an error: bad id") ∧
  (distribute_content_socialbu
     (post_world secret (Raise (RequestException (lit "timed out")))) d st).1
  = Ok (lit "Distribution failed due to network/API error: timed out").
Proof.
  intros d st secret.
  assert (lit "secret" ≠ []) as Hne by (by vm_compute).
  split.
  { destruct (distribute_reports (post_world None (Ok (ok_response posted_ok))) d st)
      as (_ & Hmissing & _).
    apply Hmissing. by left. }
  split.
  { destruct (distribute_reports (post_world secret (Ok (ok_response posted_ok))) d st)
      as (_ & _ & Hkey & _).
    destruct (Hkey (lit "secret") eq_refl Hne) as (Hok & _).
    exact (Hok (ok_response posted_ok) _ _ (JInt 42)
             eq_refl eq_refl eq_refl eq_refl eq_refl eq_refl). }
  split.
  { destruct (distribute_reports (post_world secret (Ok (ok_response posted_error))) d st)
      as (_ & _ & Hkey & _).
    destruct (Hkey (lit "secret") eq_refl Hne) as (_ & Herr & _).
    refine (Herr (ok_response posted_error) _ (JStr (lit "bad id"))
              eq_refl eq_refl eq_refl _ eq_refl).
    by vm_compute. }
  destruct (distribute_reports
              (post_world secret (Raise (RequestException (lit "timed out")))) d st)
    as (_ & _ & Hkey & _).
  destruct (Hkey (lit "secret") eq_refl Hne) as (_ & _ & Hnet).
  exact (Hnet (lit "timed out") eq_refl).
Defined.

(** ** The scraper's clean-up *)

Section Cleanup.

Implicit Types s w r : str.
Implicit Types ws : list str.

Lemma split_go_words w s :
  Forall (λ c, is_space c = false) w → Forall is_word (split_go w s).
Proof.
  revert w. induction s as [|c s IH]; intros w Hw; cbn [split_go].
  - destruct w as [|a w]; [constructor|].
    constructor; [|constructor]. split.
    + intros H. apply (f_equal length) in H. by rewrite length_reverse in H.
    + by apply Forall_reverse.
  - destruct (is_space c) eqn:Hc.
    + destruct w as [|a w]; [by apply IH|].
      constructor; [|by apply IH]. split.
      * intros H. apply (f_equal length) in H. by rewrite length_reverse in H.
      * by apply Forall_reverse.
    + apply IH. by constructor.
Qed.

Lemma split_words s : Forall is_word (split s).
Proof. by apply split_go_words. Qed.

(** Splitting keeps the characters that are not whitespace, in order. *)
Lemma split_go_concat w s :
  concat (split_go w s) = reverse w ++ filter (λ c, is_space c = false) s.
Proof.
  revert w. induction s as [|c s IH]; intros w; cbn [split_go].
  - destruct w; cbn; [done|]. by rewrite !app_nil_r.
  - rewrite filter_cons. destruct (is_space c) eqn:Hc.
    + rewrite decide_False by done.
      destruct w as [|a w]; [by rewrite IH|].
      cbn [concat]. by rewrite IH.
    + rewrite decide_True by done. rewrite IH, reverse_cons, <- app_assoc. done.
Qed.

Lemma single_spaced_word w r :
  Forall (λ c, is_space c = false) w → single_spaced (w ++ r) = single_spaced r.
Proof.
  induction 1 as [|c w Hc _ IH]; [done|].
  cbn [app single_spaced]. by rewrite Hc, IH.
Qed.

Lemma filter_word w :
  Forall (λ c, is_space c = false) w → filter (λ c, is_space c = false) w = w.
Proof.
  induction 1 as [|c w Hc _ IH]; [done|].
  rewrite filter_cons, decide_True by done. by rewrite IH.
Qed.

Lemma join_collapsed ws :
  Forall is_word ws → collapsed (join (lit " ") ws) = true.
Proof.
  induction 1 as [|p ws [Hne Hp] Hws IH]; [done|].
  destruct ws as [|q ws].
  - cbn [join]. unfold collapsed. destruct p as [|a p]; [done|].
    inversion Hp as [|? ? Ha _]; subst. unfold nonspace. rewrite Ha. cbn [negb andb].
    rewrite <- (app_nil_r (a :: p)). by rewrite single_spaced_word.
  - set (J := join (lit " ") (q :: ws)) in *.
    assert (join (lit " ") (p :: q :: ws) = p ++ 32%N :: J) as -> by done.
    unfold collapsed in *. apply andb_true_iff in IH as [Hhead HJ].
    destruct p as [|a p]; [done|].
    inversion Hp as [|? ? Ha _]; subst. cbn [app]. unfold nonspace at 1.
    rewrite Ha. cbn [negb andb].
    change (a :: p ++ 32%N :: J) with ((a :: p) ++ 32%N :: J).
    rewrite single_spaced_word by done.
    cbn [single_spaced]. change (is_space 32) with true. cbn [N.eqb Pos.eqb andb].
    rewrite HJ, andb_true_r. exact Hhead.
Qed.

Lemma filter_join ws :
  Forall is_word ws →
  filter (λ c, is_space c = false) (join (lit " ") ws) = concat ws.
Proof.
  induction 1 as [|p ws [Hne Hp] Hws IH]; [done|].
  destruct ws as [|q ws].
  - cbn [join concat]. by rewrite app_nil_r, filter_word.
  - set (J := join (lit " ") (q :: ws)) in *.
    assert (join (lit " ") (p :: q :: ws) = p ++ 32%N :: J) as -> by done.
    rewrite filter_app, filter_word by done.
    rewrite filter_cons, decide_False by done.
    by rewrite IH.
Qed.

Lemma single_spaced_take n s : single_spaced s = true → single_spaced (take n s) = true.
Proof.
  revert n. induction s as [|c s IH]; intros n H; [by destruct n|].
  destruct n as [|n]; [done|].
  cbn [take single_spaced] in *. apply andb_true_iff in H as [Hc Hs].
  rewrite (IH n Hs), andb_true_r.
  destruct (is_space c); [|done].
  apply andb_true_iff in Hc as [-> Hnext]. cbn [andb].
  destruct s as [|c' s]; [by destruct n|by destruct n].
Qed.

Lemma collapsed_take n s : collapsed s = true → collapsed (take n s) = true.
Proof.
  unfold collapsed. intros [Hh Hs]%andb_true_iff.
  rewrite (single_spaced_take n s Hs), andb_true_r.
  destruct n, s; done.
Qed.

Lemma slice_to_take s b : 0 ≤ b → slice_to s b = take (Z.to_nat b) s.
Proof.
  intros Hb. unfold slice_to, slice, clip, len.
  destruct (Z.ltb_spec 0 0) as [?|_]; [lia|].
  destruct (Z.ltb_spec b 0) as [?|_]; [lia|].
  rewrite (Z.min_l 0) by lia. change (Z.to_nat 0) with 0%nat.
  rewrite drop_0, Z.sub_0_r.
  destruct (Z.le_ge_cases b (Z.of_nat (length s))) as [Hle|Hge].
  - by rewrite Z.min_l.
  - rewrite Z.min_r, Nat2Z.id by lia.
    rewrite !take_ge; [done|lia..].
Qed.

Lemma cleanup_take description :
  cleanup description = take 2000 (join (lit " ") (split description)).
Proof. unfold cleanup. by rewrite slice_to_take. Qed.

End Cleanup.

(** C6. When the page is fetched and parsed, the scraper returns product
    details.  If the page has no [h1] and no [div] whose class holds
    [description] or [details], their title and description are the two
    sentinel texts.  For every page the description is the text with its
    whitespace runs collapsed to single spaces (the characters that are not
    whitespace are kept, in order), cut to its first 2000 characters: it is
    never longer than 2000, and it has exactly 2000 characters whenever the
    collapsed text is longer than that. *)
Theorem scrape_sentinels_and_cleanup (w : world) (url : str) (st : state)
    (resp : response page) (soup : page) :
  requests_get w url = Ok resp → raise_for_status resp = Ok tt → body resp = Ok soup →
  ∃ pd,
    scrape_product_details w url st = (Ok (Some pd), after st [CallScrape url; HttpGet url]) ∧
    (find_h1 soup = None → find_description_div soup = None →
     pd_title pd = lit "Product Title Not Found" ∧
     pd_description pd = lit "Description Not Found") ∧
    let one_spaced := join (lit " ") (split (description_text soup)) in
    collapsed one_spaced = true ∧
    filter (λ c, is_space c = false) one_spaced
    = filter (λ c, is_space c = false) (description_text soup) ∧
    pd_description pd = take 2000 one_spaced ∧
    collapsed (pd_description pd) = true ∧
    (length (pd_description pd) ≤ 2000)%nat ∧
    ((2000 < length one_spaced)%nat → length (pd_description pd) = 2000%nat) ∧
    ((length one_spaced ≤ 2000)%nat → pd_description pd = one_spaced).
Proof.
  intros Hget Hstatus Hbody. exists (details_of_page url soup).
  split.
  { rewrite scrape_product_details_runs. unfold scrape_result.
    by rewrite Hget, Hstatus, Hbody. }
  split.
  { intros Hh1 Hdiv. unfold details_of_page. rewrite Hh1, Hdiv. cbn [pd_title pd_description].
    split; [reflexivity|]. by vm_compute. }
  intros one_spaced.
  assert (pd_description (details_of_page url soup) = take 2000 one_spaced) as Hd.
  { unfold details_of_page. cbn [pd_description]. apply cleanup_take. }
  assert (collapsed one_spaced = true) as Hc by apply join_collapsed, split_words.
  split; [exact Hc|]. split.
  { unfold one_spaced. rewrite filter_join by apply split_words.
    unfold split. by rewrite split_go_concat. }
  split; [exact Hd|]. rewrite Hd.
  split; [by apply collapsed_take|].
  split; [rewrite length_take; lia|].
  split; [intros Hlong; rewrite length_take; lia|].
  intros Hshort. by apply take_ge.
Qed.

(** A description whose text is longer than 2000 characters but mostly
    whitespace is collapsed, not cut. *)
Example cleanup_whitespace_heavy :
  cleanup (lit "a" ++ replicate 2500 32%N ++ lit "b") = lit "a b".
Proof. by vm_compute. Qed.

Lemma scrape_sentinels_and_cleanup_witness :
  let w1 := sample_world {| find_h1 := None; find_description_div := None |}
              four_sections posted_ok in
  let w2 := sample_world long_page four_sections posted_ok in
  let st := with_drafts ∅ in
  (∃ pd, scrape_product_details w1 sample_url st
         = (Ok (Some pd), after st [CallScrape sample_url; HttpGet sample_url]) ∧
         pd_title pd = lit "Product Title Not Found" ∧
         pd_description pd = lit "Description Not Found") ∧
  (∃ pd, scrape_product_details w2 sample_url st
         = (Ok (Some pd), after st [CallScrape sample_url; HttpGet sample_url]) ∧
         (2000 < length (join (lit " ") (split (description_text long_page))))%nat ∧
         length (pd_description pd) = 2000%nat ∧
         pd_description pd = lit "Great " ++ replicate 1994 120%N).
Proof.
  intros w1 w2 st. split.
  - destruct (scrape_sentinels_and_cleanup w1 sample_url st
                (ok_response {| find_h1 := None; find_description_div := None |})
                {| find_h1 := None; find_description_div := None |}
                eq_refl eq_refl eq_refl) as (pd & Hrun & Hsent & _).
    exists pd. split; [exact Hrun|]. by apply Hsent.
  - destruct (scrape_sentinels_and_cleanup w2 sample_url st
                (ok_response long_page) long_page eq_refl eq_refl eq_refl)
      as (pd & Hrun & _ & _ & _ & Hd & _ & _ & Hlong & _).
    assert (2000 < length (join (lit " ") (split (description_text long_page))))%nat
      as Hlen by (vm_compute; lia).
    exists pd. split; [exact Hrun|]. split; [exact Hlen|].
    split; [by apply Hlong|]. rewrite Hd. by vm_compute.
Defined.

(** * Further properties *)

(** ** Stripping *)

Section Strip.

Implicit Types s t ws : str.

Lemma lstrip_split s :
  ∃ ws, s = ws ++ lstrip s ∧ Forall (λ c, is_space c = true) ws.
Proof.
  induction s as [|c s (ws & Hs & Hws)]; [by exists []|].
  cbn [lstrip]. destruct (is_space c) eqn:Hc.
  - exists (c :: ws). split; [by rewrite Hs at 1|by constructor].
  - by exists [].
Qed.

Lemma lstrip_head s c : head (lstrip s) = Some c → is_space c = false.
Proof.
  induction s as [|a s IH]; [done|]. cbn [lstrip].
  destruct (is_space a) eqn:Ha; [done|]. by intros [= <-].
Qed.

Lemma lstrip_id s : (∀ c, head s = Some c → is_space c = false) → lstrip s = s.
Proof. destruct s as [|a s]; [done|]. intros H. cbn. by rewrite (H a). Qed.

Lemma lstrip_spaces ws :
  Forall (λ c, is_space c = true) ws → lstrip ws = [].
Proof. induction 1 as [|c ws Hc _ IH]; [done|]. cbn. by rewrite Hc. Qed.

Lemma rstrip_split s :
  ∃ ws, s = rstrip s ++ ws ∧ Forall (λ c, is_space c = true) ws.
Proof.
  destruct (lstrip_split (reverse s)) as (ws & Hs & Hws).
  exists (reverse ws). split; [|by apply Forall_reverse].
  unfold rstrip. rewrite <- reverse_app, <- Hs. by rewrite reverse_involutive.
Qed.

Lemma rstrip_last s c : last (rstrip s) = Some c → is_space c = false.
Proof. unfold rstrip. rewrite last_reverse. apply lstrip_head. Qed.

Lemma rstrip_id s : (∀ c, last s = Some c → is_space c = false) → rstrip s = s.
Proof.
  intros H. unfold rstrip. rewrite lstrip_id, reverse_involutive; [done|].
  intros c. rewrite head_reverse. apply H.
Qed.

(** [rstrip] keeps a first character that is not whitespace. *)
Lemma rstrip_head s c :
  (∀ a, head s = Some a → is_space a = false) →
  head (rstrip s) = Some c → is_space c = false.
Proof.
  intros Hs Hc. destruct (rstrip_split s) as (ws & E & _).
  apply Hs. rewrite E. destruct (rstrip s); [done|]. exact Hc.
Qed.

Lemma strip_stripped s : stripped (strip s).
Proof.
  split; intros c.
  - apply rstrip_head. intros a. apply lstrip_head.
  - apply rstrip_last.
Qed.

Lemma strip_split s :
  ∃ ws1 ws2, s = ws1 ++ strip s ++ ws2 ∧
             Forall (λ c, is_space c = true) ws1 ∧
             Forall (λ c, is_space c = true) ws2.
Proof.
  destruct (lstrip_split s) as (ws1 & E1 & H1).
  destruct (rstrip_split (lstrip s)) as (ws2 & E2 & H2).
  exists ws1, ws2. split; [|done]. unfold strip. by rewrite <- E2.
Qed.

Lemma strip_id s : stripped s → strip s = s.
Proof.
  intros [Hh Hl]. unfold strip. rewrite (lstrip_id s Hh). by apply rstrip_id.
Qed.

End Strip.

(** ** What the parser stores *)

Section Lookup.

Implicit Types raw : str.

Lemma contains_find raw sub :
  contains raw sub = bool_decide (find raw sub 0 ≠ -1).
Proof.
  unfold contains. rewrite find_0.
  destruct (find_from raw sub 0) as [i|].
  - by rewrite bool_decide_true by lia.
  - by rewrite bool_decide_false by (intros H; by apply H).
Qed.

Lemma parse_platform_lookup raw (d : gmap str str) name q :
  parse_platform raw d name !! q
  = if bool_decide (name = q) && contains raw (header name)
    then Some (copy_of raw name) else d !! q.
Proof.
  rewrite contains_find. unfold parse_platform, copy_of. fold (header name).
  destruct (bool_decide (find raw (header name) 0 ≠ -1)) eqn:Hfind.
  - rewrite andb_true_r. destruct (decide (name = q)) as [->|Hq].
    + rewrite lookup_insert_eq, (bool_decide_true (q = q)) by done.
      by destruct (bool_decide (q ≠ Pinterest)).
    + by rewrite lookup_insert_ne, (bool_decide_false (name = q)).
  - by rewrite andb_false_r.
Qed.

Lemma parse_sections_lookup raw p :
  parse_sections raw !! p
  = if bool_decide (p ∈ platforms) && contains raw (header p)
    then Some (copy_of raw p) else None.
Proof.
  unfold parse_sections, platforms. cbn [foldl].
  rewrite !parse_platform_lookup, lookup_empty.
  destruct (decide (p = Pinterest)) as [->|HP].
  { rewrite bool_decide_true by done. rewrite (bool_decide_true (Pinterest ∈ _)) by set_solver.
    cbn [andb]. destruct (contains raw (header Pinterest)); [done|].
    cbn [andb]. by rewrite !bool_decide_false by done. }
  rewrite (bool_decide_false (Pinterest = p)) by done. cbn [andb].
  destruct (decide (p = LinkedIn)) as [->|HL].
  { rewrite bool_decide_true by done. rewrite (bool_decide_true (LinkedIn ∈ _)) by set_solver.
    cbn [andb]. destruct (contains raw (header LinkedIn)); [done|].
    cbn [andb]. by rewrite !bool_decide_false by done. }
  rewrite (bool_decide_false (LinkedIn = p)) by done. cbn [andb].
  destruct (decide (p = X_Twitter)) as [->|HX].
  { rewrite bool_decide_true by done. rewrite (bool_decide_true (X_Twitter ∈ _)) by set_solver.
    cbn [andb]. destruct (contains raw (header X_Twitter)); [done|].
    cbn [andb]. by rewrite !bool_decide_false by done. }
  rewrite (bool_decide_false (X_Twitter = p)) by done. cbn [andb].
  destruct (decide (p = Facebook)) as [->|HF].
  { rewrite bool_decide_true by done. by rewrite (bool_decide_true (Facebook ∈ _)) by set_solver. }
  rewrite (bool_decide_false (Facebook = p)) by done.
  rewrite (bool_decide_false (p ∈ _)); [done|].
  rewrite !elem_of_cons, elem_of_nil. by intros [?|[?|[?|[?|?]]]].
Qed.

End Lookup.

(** ** The handlers, whatever the world answers *)

Lemma generate_events_no_distribution w pd :
  existsb is_distribution (generate_events w pd) = false.
Proof. unfold generate_events. by destruct (gemini_client w). Qed.

Lemma generate_result_dict w pd generated_markdown d :
  generate_result w pd = (generated_markdown, Some d) →
  gemini_client w = true ∧
  generate_content w (prompt_of pd) = Ok (Some generated_markdown) ∧
  d = parse_sections generated_markdown.
Proof.
  unfold generate_result. destruct (gemini_client w); [|done].
  destruct (generate_content w (prompt_of pd)) as [[raw|]|[]]; try done.
  by intros [= -> <-].
Qed.

(** [url_message] either leaves the drafts alone or stores, for its user,
    the dictionary parsed from the text that Gemini wrote; none of its
    events is a distribution. *)
Lemma url_message_outcome w user_id url st :
  ∃ evs, existsb is_distribution evs = false ∧
    (url_message w user_id url st = (Ok tt, after st evs) ∨
     ∃ pd raw_text,
       scrape_result w url = Some pd ∧
       generate_content w (prompt_of pd) = Ok (Some raw_text) ∧
       parse_sections raw_text ≠ ∅ ∧
       prompts evs = [prompt_of pd] ∧
       url_message w user_id url st
       = (Ok tt, {| user_draft_content :=
                      <[user_id := parse_sections raw_text]> (user_draft_content st);
                    trace := trace st ++ evs |})).
Proof.
  destruct (startswith url (lit "http")) eqn:Hhttp.
  2: { exists [Reply invalid_url_msg]. split; [done|]. left.
       unfold url_message. by rewrite Hhttp. }
  rewrite (url_message_http w user_id url st Hhttp).
  destruct (scrape_result w url) as [pd|]; [|eexists; split; [|by left]; done].
  destruct (contains (pd_description pd) description_not_found);
    [eexists; split; [|by left]; done|].
  cbn zeta.
  destruct (generate_result w pd) as [md [d|]] eqn:Hgen.
  - apply generate_result_dict in Hgen as (Hclient & Hraw & ->).
    case_bool_decide as Hempty.
    + eexists. split; [|by left].
      rewrite !existsb_app, generate_events_no_distribution. done.
    + eexists. split; [|right; exists pd, md; split; [done|]; split; [done|];
                        split; [done|]; split; [|done]].
      * rewrite !existsb_app, generate_events_no_distribution. done.
      * unfold generate_events. by rewrite Hclient.
  - eexists. split; [|by left].
    rewrite !existsb_app, generate_events_no_distribution. done.
Qed.

Lemma distributed_none evs : existsb is_distribution evs = false → distributed evs = [] ∧ posted evs = [].
Proof.
  induction evs as [|e evs IH]; [done|]. cbn [existsb].
  intros [He Hevs]%orb_false_iff. destruct (IH Hevs) as [H1 H2].
  unfold distributed, posted in *. by destruct e; simpl in *.
Qed.

Lemma approve_with_draft w user_id st d :
  user_draft_content st !! user_id = Some d →
  approve_command w user_id st
  = (Ok tt, {| user_draft_content := delete user_id (user_draft_content st);
               trace := trace st ++ Reply approval_received_msg :: distribute_events w d
                        ++ [Reply (status_msg (distribute_result w d))] |}).
Proof.
  intros Hd. unfold approve_command, bind at 1, store_take, take_draft. rewrite Hd.
  unfold bind at 1, reply_text at 1, emit. cbn [user_draft_content trace].
  unfold bind. rewrite distribute_content_socialbu_runs.
  unfold reply_text, emit, after. cbn [user_draft_content trace].
  by rewrite <- !app_assoc.
Qed.

Lemma approve_no_draft w user_id st :
  user_draft_content st !! user_id = None →
  approve_command w user_id st = (Ok tt, after st [Reply nothing_to_approve_msg]).
Proof.
  intros Hnone. unfold approve_command, bind, store_take, take_draft.
  by rewrite Hnone.
Qed.

(** ** Invariants of the running bot *)

Lemma distributed_app evs evs' : distributed (evs ++ evs') = distributed evs ++ distributed evs'.
Proof. apply omap_app. Qed.

Lemma posted_app evs evs' : posted (evs ++ evs') = posted evs ++ posted evs'.
Proof. apply omap_app. Qed.

Lemma prompts_app evs evs' : prompts (evs ++ evs') = prompts evs ++ prompts evs'.
Proof. apply omap_app. Qed.

Lemma parse_sections_good raw : parse_sections raw ≠ ∅ → good_draft (parse_sections raw).
Proof.
  intros Hne. split; [done|]. intros p [v Hv].
  rewrite parse_sections_lookup in Hv.
  destruct (bool_decide (p ∈ platforms)) eqn:Hp; [|done].
  by apply bool_decide_eq_true in Hp.
Qed.

Lemma invariant_after st evs :
  existsb is_distribution evs = false → invariant st → invariant (after st evs).
Proof.
  intros [Hd Hp]%distributed_none (Hdrafts & Hdist & Hpost & Hle & Hcount).
  unfold invariant, after. cbn [user_draft_content trace].
  rewrite distributed_app, posted_app, prompts_app, Hd, Hp, !app_nil_r.
  split; [|split; [|split; [|split]]]; try done. rewrite length_app. lia.
Qed.

Lemma url_message_invariant w user_id url st :
  invariant st → invariant (url_message w user_id url st).2.
Proof.
  intros Hinv.
  destruct (url_message_outcome w user_id url st) as (evs & Hevs & [-> | Hstore]).
  { by apply invariant_after. }
  destruct Hstore as (pd & raw & _ & _ & Hne & Hprompts & ->).
  destruct (distributed_none evs Hevs) as [Hd Hp].
  destruct Hinv as (Hdrafts & Hdist & Hpost & Hle & Hcount).
  unfold invariant. cbn [snd user_draft_content trace].
  rewrite distributed_app, posted_app, prompts_app, Hd, Hp, Hprompts, !app_nil_r.
  split; [|split; [|split; [|split]]]; try done.
  - intros u d. destruct (decide (user_id = u)) as [->|Hu].
    + rewrite lookup_insert_eq. intros [= <-]. by apply parse_sections_good.
    + rewrite lookup_insert_ne by done. apply Hdrafts.
  - rewrite length_app, map_size_insert. cbn [length].
    destruct (user_draft_content st !! user_id); cbn; lia.
Qed.

Lemma approve_command_invariant w user_id st :
  invariant st → invariant (approve_command w user_id st).2.
Proof.
  intros Hinv.
  destruct (user_draft_content st !! user_id) as [d|] eqn:Hd.
  2: { rewrite (approve_no_draft w user_id st Hd). by apply invariant_after. }
  rewrite (approve_with_draft w user_id st d Hd).
  destruct Hinv as (Hdrafts & Hdist & Hpost & Hle & Hcount).
  pose proof (Hdrafts _ _ Hd) as Hgood.
  assert (distributed (distribute_events w d) = [d]) as Edist.
  { unfold distribute_events. by destruct (SOCIALBU_API_KEY w) as [[|c key]|]. }
  unfold invariant. cbn [snd user_draft_content trace].
  rewrite !distributed_app, !posted_app, !prompts_app.
  change (Reply approval_received_msg :: distribute_events w d
          ++ [Reply (status_msg (distribute_result w d))])
    with ([Reply approval_received_msg] ++ distribute_events w d
          ++ [Reply (status_msg (distribute_result w d))]).
  rewrite !distributed_app, !posted_app, !prompts_app, Edist.
  assert (prompts (distribute_events w d) = []) as ->.
  { unfold distribute_events. by destruct (SOCIALBU_API_KEY w) as [[|c key]|]. }
  cbn [distributed posted prompts omap list_omap app]. rewrite !app_nil_r.
  split; [|split; [|split; [|split]]].
  - intros u d'. destruct (decide (user_id = u)) as [->|Hu].
    + by rewrite lookup_delete_eq.
    + rewrite lookup_delete_ne by done. apply Hdrafts.
  - apply Forall_app. split; [done|]. by constructor.
  - apply Forall_app. split; [done|].
    unfold distribute_events. destruct (SOCIALBU_API_KEY w) as [[|c key]|]; try constructor.
    + by exists (c :: key), d.
    + constructor.
  - rewrite !length_app. cbn [length].
    unfold distribute_events. destruct (SOCIALBU_API_KEY w) as [[|c key]|]; cbn; lia.
  - rewrite length_app, map_size_delete, Hd. cbn [length].
    assert (size (user_draft_content st) ≠ 0)%nat.
    { apply map_size_non_empty_iff. intros E. by rewrite E, lookup_empty in Hd. }
    cbn. lia.
Qed.

Lemma process_update_invariant w u st :
  invariant st → invariant (process_update w u st).2.
Proof.
  intros Hinv. destruct u as [user_id command|user_id text];
    [|by apply url_message_invariant].
  unfold process_update, command_handlers. cbn [find_handler].
  repeat case_bool_decide.
  - by apply (invariant_after st [Reply welcome_msg]).
  - by apply (invariant_after st [Reply help_msg]).
  - by apply approve_command_invariant.
  - cbn. done.
Qed.

Lemma run_polling_invariant inputs st :
  invariant st → invariant (run_polling inputs st).
Proof.
  revert st. induction inputs as [|[w u] inputs IH]; intros st Hinv; [done|].
  cbn. apply IH. by apply process_update_invariant.
Qed.

Lemma invariant_initial : invariant (with_drafts ∅).
Proof.
  unfold invariant. cbn [with_drafts user_draft_content trace].
  split; [|split; [|split; [|split]]]; [|by constructor..|by cbn].
  intros u d. by rewrite lookup_empty.
Qed.

Lemma main_invariant BOT_TOKEN inputs : invariant (main BOT_TOKEN inputs).
Proof.
  unfold main. destruct BOT_TOKEN as [[|c t]|];
    [apply invariant_initial| |apply invariant_initial].
  apply run_polling_invariant, invariant_initial.
Qed.

(** ** Further properties of the parser *)

(** X1. The parsed dictionary has a key exactly for the platforms whose
    header occurs in the text, wherever and in whatever order the headers
    stand. *)
Theorem parse_sections_key_iff_header (raw_text p : str) :
  is_Some (parse_sections raw_text !! p)
  ↔ p ∈ platforms ∧ contains raw_text (header p) = true.
Proof.
  rewrite parse_sections_lookup. split.
  - intros [v Hv]. destruct (bool_decide (p ∈ platforms)) eqn:Hp; [|done].
    apply bool_decide_eq_true in Hp. by destruct (contains raw_text (header p)).
  - intros [Hp ->]. by rewrite bool_decide_true.
Qed.

Lemma slice_infix (s : str) a b : ∃ x y, s = x ++ slice s a b ++ y.
Proof.
  unfold slice. eexists (take _ s), (drop _ (drop _ s)).
  by rewrite take_drop, take_drop.
Qed.

(** X2. Every copy in the parsed dictionary is a contiguous piece of the
    generated text and neither starts nor ends with whitespace, so that
    stripping it again changes nothing. *)
Theorem parse_sections_values_stripped (raw_text p v : str) :
  parse_sections raw_text !! p = Some v →
  stripped v ∧ strip v = v ∧ ∃ x y, raw_text = x ++ v ++ y.
Proof.
  rewrite parse_sections_lookup.
  destruct (_ && _); [|done]. intros [= <-].
  split; [apply strip_stripped|]. split; [apply strip_id, strip_stripped|].
  unfold copy_of.
  destruct (slice_infix raw_text
              (find raw_text (header p) 0 + len (header p))
              (if bool_decide (p ≠ Pinterest)
               then find raw_text marker (find raw_text (header p) 0 + len (header p))
               else len raw_text)) as (x & y & E).
  destruct (strip_split (slice raw_text
              (find raw_text (header p) 0 + len (header p))
              (if bool_decide (p ≠ Pinterest)
               then find raw_text marker (find raw_text (header p) 0 + len (header p))
               else len raw_text))) as (ws1 & ws2 & E' & _).
  exists (x ++ ws1), (ws2 ++ y). rewrite E at 1. rewrite E' at 1.
  by rewrite <- !app_assoc.
Qed.

Lemma parse_sections_values_stripped_witness :
  parse_sections four_sections !! LinkedIn = Some (lit "C") ∧
  stripped (lit "C") ∧ strip (lit "C") = lit "C" ∧
  ∃ x y, four_sections = x ++ lit "C" ++ y.
Proof.
  assert (parse_sections four_sections !! LinkedIn = Some (lit "C")) as H
    by (by vm_compute).
  split; [exact H|].
  exact (parse_sections_values_stripped four_sections LinkedIn (lit "C") H).
Defined.

Lemma find_from_free (u sub : str) i :
  contains u marker = false → startswith sub marker = true →
  find_from u sub i = None.
Proof.
  intros Hu Hsub. destruct (startswith_inv _ _ Hsub) as [x ->]. revert i.
  induction u as [|a u IH]; intros i.
  - by cbn.
  - apply contains_cons_false in Hu as [Ha Hu].
    rewrite find_from_cons_ne; [by apply IH|].
    destruct (startswith (a :: u) (marker ++ x)) eqn:E; [|done].
    apply startswith_weaken in E. congruence.
Qed.

Lemma slice_drop_last (p a : str) : slice (p ++ a) (len p) (-1) = removelast a.
Proof.
  rewrite removelast_firstn_len.
  unfold slice, clip, len. rewrite length_app.
  destruct (Z.ltb_spec (Z.of_nat (length p)) 0) as [?|_]; [lia|].
  destruct (Z.ltb_spec (-1) 0) as [_|?]; [|lia].
  rewrite Z.min_l by lia. rewrite Nat2Z.id, drop_app_length.
  f_equal. lia.
Qed.

(** A platform other than the last whose section is the last of the
    text: the search for the next ["## "] fails, and the slice that takes
    its [-1] as an end drops the last character. *)
Lemma parse_platform_at_end (u name a : str) (d : gmap str str) :
  name ≠ Pinterest →
  find_from (u ++ header name ++ a) (header name) 0 = Some (length u) →
  contains a marker = false →
  parse_platform (u ++ header name ++ a) d name = <[name := strip (removelast a)]> d.
Proof.
  intros Hname Hfind Ha. unfold parse_platform. fold (header name).
  rewrite find_0, Hfind.
  rewrite bool_decide_true by lia. rewrite (bool_decide_true _ Hname).
  replace (Z.of_nat (length u) + len (header name)) with (len (u ++ header name))
    by (unfold len; rewrite length_app; lia).
  rewrite (app_assoc u (header name)).
  rewrite find_at. rewrite (find_from_free a marker) by done.
  by rewrite slice_drop_last.
Qed.

Lemma lstrip_snoc_space (s : str) c :
  is_space c = true →
  lstrip (s ++ [c]) = match lstrip s with [] => [] | _ => lstrip s ++ [c] end.
Proof.
  intros Hc. induction s as [|a s IH]; cbn [app lstrip].
  - by rewrite Hc.
  - destruct (is_space a); [exact IH|done].
Qed.

Lemma rstrip_snoc_space (s : str) c : is_space c = true → rstrip (s ++ [c]) = rstrip s.
Proof.
  intros Hc. unfold rstrip. rewrite reverse_app. cbn [reverse rev_append app].
  change (reverse [c]) with [c]. cbn [app lstrip]. by rewrite Hc.
Qed.

(** A whitespace character at the end of a text does not show in its
    stripped form. *)
Lemma strip_snoc_space (s : str) c : is_space c = true → strip (s ++ [c]) = strip s.
Proof.
  intros Hc. unfold strip. rewrite lstrip_snoc_space by done.
  destruct (lstrip s) eqn:E; [done|]. by rewrite rstrip_snoc_space.
Qed.

Ltac find_nothing :=
  rewrite <- ?app_assoc;
  unfold header, marker, Facebook, X_Twitter, LinkedIn, Pinterest;
  cbn [app];
  repeat first
    [ rewrite find_from_cons_ne by reflexivity
    | rewrite find_from_skip by (assumption || reflexivity) ];
  by rewrite find_from_free.

(** X3. A text with the Facebook, X (Twitter) and LinkedIn sections but
    without the Pinterest header parses to three keys.  Facebook and
    X (Twitter) map to their stripped bodies.  The LinkedIn body [C], which
    ends the text, is stripped after its last character has been dropped:
    the copy is the stripped body when [C] ends with whitespace, and the
    stripped body without its last character otherwise. *)
Theorem parse_sections_without_pinterest (pre A B C : str) :
  contains pre marker = false →
  contains A marker = false →
  contains B marker = false →
  contains C marker = false →
  parse_sections
    (pre ++ header Facebook ++ A ++ header X_Twitter ++ B ++ header LinkedIn ++ C)
  = <[LinkedIn := strip (removelast C)]>
      (<[X_Twitter := strip B]>
         (<[Facebook := strip A]> ∅)) ∧
  (∀ C' c, C = C' ++ [c] →
     strip (removelast C) = if is_space c then strip C else strip C').
Proof.
  intros Hpre HA HB HC. split.
  - set (raw := pre ++ _).
    assert (∀ d, parse_platform raw d Facebook = <[Facebook := strip A]> d) as E1.
    { intros d. unfold raw. apply parse_platform_inner; [done| |done|done].
      find_header. }
    assert (∀ d, parse_platform raw d X_Twitter = <[X_Twitter := strip B]> d) as E2.
    { intros d.
      replace raw with ((pre ++ header Facebook ++ A) ++ header X_Twitter ++ B
                        ++ (header LinkedIn ++ C))
        by (unfold raw; by rewrite <- !app_assoc).
      apply parse_platform_inner; [done| |done|done]. find_header. }
    assert (∀ d, parse_platform raw d LinkedIn = <[LinkedIn := strip (removelast C)]> d)
      as E3.
    { intros d.
      replace raw with ((pre ++ header Facebook ++ A ++ header X_Twitter ++ B)
                        ++ header LinkedIn ++ C)
        by (unfold raw; by rewrite <- !app_assoc).
      apply parse_platform_at_end; [done| |done]. find_header. }
    assert (contains raw (header Pinterest) = false) as E4.
    { unfold contains, raw. by find_nothing. }
    unfold parse_sections, platforms. cbn [foldl].
    by rewrite E1, E2, E3, (parse_platform_absent raw Pinterest).
  - intros C' c ->. rewrite removelast_last.
    destruct (is_space c) eqn:Hc; [|done]. by rewrite strip_snoc_space.
Qed.

Lemma parse_sections_without_pinterest_witness :
  let A := nl ++ lit "Buy #now" ++ nl in
  let B := nl ++ lit "Short" ++ nl in
  (contains [] marker = false ∧ contains A marker = false ∧
   contains B marker = false) ∧
  (contains (nl ++ lit "Value") marker = false ∧
   parse_sections ([] ++ header Facebook ++ A ++ header X_Twitter ++ B
                      ++ header LinkedIn ++ nl ++ lit "Value")
   = <[LinkedIn := lit "Valu"]> (<[X_Twitter := lit "Short"]> (<[Facebook := lit "Buy #now"]> ∅))) ∧
  (contains (nl ++ lit "Value" ++ nl) marker = false ∧
   parse_sections ([] ++ header Facebook ++ A ++ header X_Twitter ++ B
                      ++ header LinkedIn ++ nl ++ lit "Value" ++ nl)
   = <[LinkedIn := lit "Value"]> (<[X_Twitter := lit "Short"]> (<[Facebook := lit "Buy #now"]> ∅))).
Proof.
  intros A B. split; [by vm_compute|]. split.
  - split; [by vm_compute|].
    exact (proj1 (parse_sections_without_pinterest [] A B (nl ++ lit "Value")
                    eq_refl eq_refl eq_refl eq_refl)).
  - split; [by vm_compute|].
    exact (proj1 (parse_sections_without_pinterest [] A B (nl ++ lit "Value" ++ nl)
                    eq_refl eq_refl eq_refl eq_refl)).
Defined.

(** ** Further properties of the handlers *)

Lemma fetched_scrape_result w url soup :
  fetched w url soup → scrape_result w url = Some (details_of_page url soup).
Proof.
  intros (resp & Hget & Hstatus & Hbody). unfold scrape_result.
  by rewrite Hget, Hstatus, Hbody.
Qed.


(** X5. When the request for the page raises, or is answered with a
    status from 400 to 599, or the page cannot be parsed, [url_message]
    replies that scraping failed; it does not call the generator and
    leaves the drafts as they were. *)
Theorem url_message_scrape_failure (w : world) (user_id : Z) (url : str) (st : state) :
  startswith url (lit "http") = true →
  ((∃ e, requests_get w url = Raise e) ∨
   (∃ resp, requests_get w url = Ok resp ∧
            ((400 ≤ status_code resp < 600) ∨ ∃ e, body resp = Raise e))) →
  url_message w user_id url st
  = (Ok tt, after st [Reply received_msg; CallScrape url; HttpGet url;
                      Reply scrape_failed_msg]).
Proof.
  intros Hhttp Hfail. rewrite (url_message_http w user_id url st Hhttp).
  assert (scrape_result w url = None) as ->; [|done].
  unfold scrape_result.
  destruct Hfail as [[e ->] | (resp & -> & [Hstatus | [e He]])]; [done| |].
  - unfold raise_for_status.
    destruct (Z.leb_spec 400 (status_code resp)); [|lia].
    destruct (Z.ltb_spec (status_code resp) 600); [|lia]. done.
  - rewrite He. by destruct (raise_for_status resp) as [[]|].
Qed.

Lemma url_message_scrape_failure_witness :
  let not_found : response page :=
    {| status_code := 404; http_error := lit "404 Client Error"; body := Ok widget_page |} in
  let w := custom_world (Some (lit "secret")) true (Ok not_found)
             (Ok (Some four_sections)) (Ok (ok_response posted_ok)) in
  let st := with_drafts {[7 := {[Facebook := lit "old"]}]} in
  startswith sample_url (lit "http") = true ∧
  (∃ resp, requests_get w sample_url = Ok resp ∧
           ((400 ≤ status_code resp < 600) ∨ ∃ e, body resp = Raise e)) ∧
  url_message w 7 sample_url st
  = (Ok tt, after st [Reply received_msg; CallScrape sample_url; HttpGet sample_url;
                      Reply scrape_failed_msg]).
Proof.
  intros not_found w st.
  assert (∃ resp, requests_get w sample_url = Ok resp ∧
           ((400 ≤ status_code resp < 600) ∨ ∃ e, body resp = Raise e)) as H.
  { exists not_found. split; [reflexivity|]. left. cbn. lia. }
  split; [reflexivity|]. split; [exact H|].
  apply (url_message_scrape_failure w 7 sample_url st eq_refl). right. exact H.
Defined.

(** X6. When the page is scraped but generation fails, [url_message]
    replies with the failure text and stores nothing.  Without a Gemini
    client no request is sent to Gemini; the reply names the missing
    client.  An [APIError] shows in the reply with its text; any other
    exception, or a response without text, gives the general message. *)
Theorem url_message_generation_failure (w : world) (user_id : Z) (url : str)
    (st : state) (soup : page) :
  startswith url (lit "http") = true →
  fetched w url soup →
  contains (pd_description (details_of_page url soup)) description_not_found = false →
  let pd := details_of_page url soup in
  let failed evs message :=
    url_message w user_id url st
    = (Ok tt, after st ([Reply received_msg; CallScrape url; HttpGet url; CallGenerate pd]
                        ++ evs ++ [Reply (generation_failed_msg message)])) in
  (gemini_client w = false →
   failed [] (lit "Gemini client not initialized. Check API Key.")) ∧
  (gemini_client w = true →
   (∀ e, generate_content w (prompt_of pd) = Raise (APIError e) →
         failed [Generate (prompt_of pd)]
                (lit "Gemini API Error: Could not generate content. " ++ e)) ∧
   (∀ e, generate_content w (prompt_of pd) = Raise e →
         (∀ e', e ≠ APIError e') →
         failed [Generate (prompt_of pd)]
                (lit "An unexpected error occurred during content generation.")) ∧
   (generate_content w (prompt_of pd) = Ok None →
    failed [Generate (prompt_of pd)]
           (lit "An unexpected error occurred during content generation."))).
Proof.
  intros Hhttp Hfetch Hdesc pd failed. unfold failed, pd.
  rewrite (url_message_http w user_id url st Hhttp).
  rewrite (fetched_scrape_result w url soup Hfetch), Hdesc.
  cbn zeta. unfold generate_result, generate_events, scrape_events.
  split.
  - intros ->. by rewrite <- !app_assoc.
  - intros ->. split; [|split].
    + intros e ->. by rewrite <- !app_assoc.
    + intros e -> Hne. destruct e as [e|e|e]; [|by destruct (Hne e)|];
        by rewrite <- !app_assoc.
    + intros ->. by rewrite <- !app_assoc.
Qed.

Lemma url_message_generation_failure_witness :
  let quota := Raise (APIError (lit "429 quota")) in
  let w0 := custom_world None false (Ok (ok_response widget_page)) quota
              (Ok (ok_response posted_ok)) in
  let w1 := custom_world None true (Ok (ok_response widget_page)) quota
              (Ok (ok_response posted_ok)) in
  let st := with_drafts ∅ in
  let pd := details_of_page sample_url widget_page in
  (startswith sample_url (lit "http") = true ∧ fetched w0 sample_url widget_page ∧
   fetched w1 sample_url widget_page ∧
   contains (pd_description pd) description_not_found = false) ∧
  url_message w0 7 sample_url st
  = (Ok tt, after st ([Reply received_msg; CallScrape sample_url; HttpGet sample_url;
                       CallGenerate pd] ++ []
                      ++ [Reply (generation_failed_msg
                                   (lit "Gemini client not initialized. Check API Key."))])) ∧
  url_message w1 7 sample_url st
  = (Ok tt, after st ([Reply received_msg; CallScrape sample_url; HttpGet sample_url;
                       CallGenerate pd] ++ [Generate (prompt_of pd)]
                      ++ [Reply (generation_failed_msg
                                   (lit "Gemini API Error: Could not generate content. "
                                    ++ lit "429 quota"))])).
Proof.
  intros quota w0 w1 st pd.
  assert (fetched w0 sample_url widget_page) as F0
    by (exists (ok_response widget_page); by repeat split).
  assert (fetched w1 sample_url widget_page) as F1
    by (exists (ok_response widget_page); by repeat split).
  assert (contains (pd_description pd) description_not_found = false) as Hd
    by (by vm_compute).
  split; [by repeat split|]. split.
  - exact (proj1 (url_message_generation_failure w0 7 sample_url st widget_page
                    eq_refl F0 Hd) eq_refl).
  - destruct (url_message_generation_failure w1 7 sample_url st widget_page
                eq_refl F1 Hd) as [_ H].
    destruct (H eq_refl) as (Hapi & _). exact (Hapi (lit "429 quota") eq_refl).
Defined.

Lemma split_go_spaces (ws : str) :
  Forall (λ c, is_space c = true) ws → split_go [] ws = [].
Proof. induction 1 as [|c ws Hc _ IH]; [done|]. cbn [split_go]. by rewrite Hc. Qed.

Lemma strip_spaces (ws : str) : Forall (λ c, is_space c = true) ws → strip ws = [].
Proof. intros H. unfold strip. by rewrite lstrip_spaces. Qed.

(** X7. The guard of [url_message] looks only for the description
    sentinel.  A page without a heading but with a description goes on to
    generation with the title ["Product Title Not Found"], which the prompt
    then carries; and a description block that holds only whitespace gives
    the empty description, which passes the guard as well. *)
Theorem url_message_guard_only_description (w : world) (user_id : Z) (url : str)
    (st : state) (soup : page) (text : str) :
  startswith url (lit "http") = true →
  fetched w url soup →
  find_description_div soup = Some text →
  let pd := details_of_page url soup in
  (Forall (λ c, is_space c = true) text → pd_description pd = []) ∧
  (contains (pd_description pd) description_not_found = false →
   ∃ evs, trace (url_message w user_id url st).2
          = trace st ++ [Reply received_msg; CallScrape url; HttpGet url; CallGenerate pd]
            ++ evs) ∧
  (find_h1 soup = None →
   pd_title pd = lit "Product Title Not Found" ∧
   ∃ x y, prompt_of pd = x ++ lit "Product Title: Product Title Not Found" ++ y).
Proof.
  intros Hhttp Hfetch Hdiv pd. split; [|split].
  - intros Hblank. unfold pd, details_of_page. rewrite Hdiv. cbn [pd_description].
    rewrite strip_spaces by done. by vm_compute.
  - intros Hdesc. rewrite (url_message_http w user_id url st Hhttp).
    rewrite (fetched_scrape_result w url soup Hfetch). fold pd. rewrite Hdesc.
    cbn zeta. unfold scrape_events, generate_events.
    destruct (generate_result w pd) as [md [d|]]; [case_bool_decide|];
      eexists; unfold after; cbn [snd trace]; rewrite <- ?app_assoc; cbn [app];
      reflexivity.
  - intros Hh1.
    assert (pd_title pd = lit "Product Title Not Found") as Ht.
    { unfold pd, details_of_page. by rewrite Hh1. }
    split; [exact Ht|].
    unfold prompt_of. rewrite Ht.
    eexists (nl ++ lit "    You are a professional content strategist. Your task is to generate platform-specific sales copy " ++ nl
             ++ lit "    for a product based on the following details." ++ nl ++ nl ++ lit "    "), _.
    rewrite <- !app_assoc. reflexivity.
Qed.

Lemma url_message_guard_only_description_witness :
  let blank : page := {| find_h1 := None; find_description_div := Some (lit "   " ++ nl) |} in
  let w := sample_world blank four_sections posted_ok in
  let st := with_drafts ∅ in
  let pd := details_of_page sample_url blank in
  (startswith sample_url (lit "http") = true ∧ fetched w sample_url blank ∧
   find_description_div blank = Some (lit "   " ++ nl) ∧
   Forall (λ c, is_space c = true) (lit "   " ++ nl) ∧
   contains (pd_description pd) description_not_found = false ∧
   find_h1 blank = None) ∧
  pd_description pd = [] ∧
  pd_title pd = lit "Product Title Not Found" ∧
  ∃ evs, trace (url_message w 7 sample_url st).2
         = trace st ++ [Reply received_msg; CallScrape sample_url; HttpGet sample_url;
                        CallGenerate pd] ++ evs.
Proof.
  intros blank w st pd.
  assert (fetched w sample_url blank) as F
    by (exists (ok_response blank); by repeat split).
  assert (Forall (λ c, is_space c = true) (lit "   " ++ nl)) as Hblank
    by (repeat constructor).
  destruct (url_message_guard_only_description w 7 sample_url st blank
              (lit "   " ++ nl) eq_refl F eq_refl) as (Hd & Hgo & Ht).
  assert (contains (pd_description pd) description_not_found = false) as Hguard
    by (by vm_compute).
  split; [by repeat split|].
  split; [by apply Hd|]. split; [by apply Ht|]. by apply Hgo.
Defined.

(** X8. With a draft stored, [/approve] removes it and hands exactly this
    draft to the distributor, once.  The draft is removed before the
    distributor runs: whatever distribution answers, also when the key is
    missing and nothing is posted, the draft is gone and a second
    [/approve] finds nothing to approve. *)
Theorem approve_consumes_draft (w : world) (user_id : Z) (st : state)
    (d : gmap str str) :
  user_draft_content st !! user_id = Some d →
  ∃ evs,
    let st' := {| user_draft_content := delete user_id (user_draft_content st);
                  trace := trace st ++ evs |} in
    approve_command w user_id st = (Ok tt, st') ∧
    distributed evs = [d] ∧
    last evs = Some (Reply (status_msg (distribute_result w d))) ∧
    (SOCIALBU_API_KEY w = None →
     posted evs = [] ∧ distribute_result w d = key_missing_msg) ∧
    (∀ w2, approve_command w2 user_id st'
           = (Ok tt, after st' [Reply nothing_to_approve_msg])).
Proof.
  intros Hd. eexists. cbn zeta.
  split; [by apply approve_with_draft|].
  assert (distributed (distribute_events w d) = [d]) as Edist.
  { unfold distribute_events. by destruct (SOCIALBU_API_KEY w) as [[|c key]|]. }
  split; [|split; [|split]].
  - change (Reply approval_received_msg :: distribute_events w d
            ++ [Reply (status_msg (distribute_result w d))])
      with ([Reply approval_received_msg] ++ distribute_events w d
            ++ [Reply (status_msg (distribute_result w d))]).
    by rewrite !distributed_app, Edist.
  - rewrite app_comm_cons. apply last_snoc.
  - intros Hkey. unfold distribute_events, distribute_result. by rewrite Hkey.
  - intros w2. apply approve_no_draft.
    cbn [user_draft_content]. apply lookup_delete_eq.
Qed.

Lemma approve_consumes_draft_witness :
  let d : gmap str str := {[Facebook := lit "A"]} in
  let w := post_world None (Ok (ok_response posted_ok)) in
  let st := with_drafts {[7 := d]} in
  user_draft_content st !! 7 = Some d ∧
  ∃ evs,
    let st' := {| user_draft_content := delete 7 (user_draft_content st);
                  trace := trace st ++ evs |} in
    approve_command w 7 st = (Ok tt, st') ∧
    distributed evs = [d] ∧
    last evs = Some (Reply (status_msg (distribute_result w d))) ∧
    (SOCIALBU_API_KEY w = None →
     posted evs = [] ∧ distribute_result w d = key_missing_msg) ∧
    (∀ w2, approve_command w2 7 st'
           = (Ok tt, after st' [Reply nothing_to_approve_msg])).
Proof.
  intros d w st. split; [reflexivity|].
  apply (approve_consumes_draft w 7 st d). reflexivity.
Defined.

(** X9. A URL message that succeeds, followed by [/approve] of the same
    user, distributes exactly the dictionary parsed from the text Gemini
    wrote for that message, whatever draft the user had before; the post
    carries the text built from that dictionary, and the user is left
    without a draft. *)
Theorem approve_after_url_message (w w' : world) (user_id : Z) (url : str)
    (st : state) (soup : page) (raw_text key : str) :
  startswith url (lit "http") = true →
  fetched w url soup →
  let pd := details_of_page url soup in
  contains (pd_description pd) description_not_found = false →
  gemini_client w = true →
  generate_content w (prompt_of pd) = Ok (Some raw_text) →
  parse_sections raw_text ≠ ∅ →
  SOCIALBU_API_KEY w' = Some key → key ≠ [] →
  let d := parse_sections raw_text in
  let st1 := (url_message w user_id url st).2 in
  user_draft_content st1 !! user_id = Some d ∧
  approve_command w' user_id st1
  = (Ok tt,
     {| user_draft_content := delete user_id (user_draft_content st);
        trace := trace st1
                 ++ [Reply approval_received_msg; CallDistribute d;
                     HttpPost (build_payload key d);
                     Reply (status_msg (distribute_result w' d))] |}) ∧
  content (build_payload key d)
  = lit "Multi-platform content generated by Content Forge Bot:" ++ nl ++ nl
    ++ dict_get d Facebook ++ nl ++ nl ++ dict_get d X_Twitter.
Proof.
  intros Hhttp Hfetch pd Hdesc Hclient Hgen Hne Hkey Hkne d st1.
  assert (user_draft_content st1 = <[user_id := d]> (user_draft_content st)) as Hdrafts.
  { unfold st1. rewrite (url_message_http w user_id url st Hhttp).
    rewrite (fetched_scrape_result w url soup Hfetch). fold pd. rewrite Hdesc.
    cbn zeta. unfold generate_result. rewrite Hclient, Hgen.
    by rewrite bool_decide_false by done. }
  assert (user_draft_content st1 !! user_id = Some d) as Hd
    by (rewrite Hdrafts; apply lookup_insert_eq).
  split; [exact Hd|]. split; [|done].
  rewrite (approve_with_draft w' user_id st1 d Hd).
  rewrite Hdrafts, delete_insert_eq.
  unfold distribute_events. rewrite Hkey. by destruct key.
Qed.

Lemma approve_after_url_message_witness :
  let w := sample_world widget_page four_sections posted_ok in
  let st := with_drafts {[7 := {[Pinterest := lit "old"]}]} in
  let pd := details_of_page sample_url widget_page in
  let d := parse_sections four_sections in
  let st1 := (url_message w 7 sample_url st).2 in
  (startswith sample_url (lit "http") = true ∧ fetched w sample_url widget_page ∧
   contains (pd_description pd) description_not_found = false ∧
   gemini_client w = true ∧
   generate_content w (prompt_of pd) = Ok (Some four_sections) ∧
   parse_sections four_sections ≠ ∅ ∧
   SOCIALBU_API_KEY w = Some (lit "secret") ∧ lit "secret" ≠ []) ∧
  user_draft_content st1 !! 7 = Some d ∧
  approve_command w 7 st1
  = (Ok tt,
     {| user_draft_content := delete 7 (user_draft_content st);
        trace := trace st1
                 ++ [Reply approval_received_msg; CallDistribute d;
                     HttpPost (build_payload (lit "secret") d);
                     Reply (status_msg (distribute_result w d))] |}) ∧
  content (build_payload (lit "secret") d)
  = lit "Multi-platform content generated by Content Forge Bot:" ++ nl ++ nl
    ++ lit "A" ++ nl ++ nl ++ lit "B".
Proof.
  intros w st pd d st1.
  assert (fetched w sample_url widget_page) as F
    by (exists (ok_response widget_page); by repeat split).
  assert (contains (pd_description pd) description_not_found = false) as Hdesc
    by (by vm_compute).
  assert (parse_sections four_sections ≠ ∅) as Hne.
  { intros E. apply (f_equal (λ m : gmap str str, m !! Facebook)) in E.
    vm_compute in E. discriminate E. }
  assert (lit "secret" ≠ []) as Hk by (by vm_compute).
  destruct (approve_after_url_message w w 7 sample_url st widget_page four_sections
              (lit "secret") eq_refl F Hdesc eq_refl eq_refl Hne eq_refl Hk)
    as (H1 & H2 & H3).
  split; [by repeat split|]. split; [exact H1|]. split; [exact H2|]. exact H3.
Defined.

(** X10. From the start of [main], whatever updates arrive and whatever
    the services answer: every stored draft, and every dictionary ever
    handed to the distributor, is not empty and has its keys among the four
    platforms; and every payload ever posted was built from such a
    dictionary with a key that is not empty. *)
Theorem main_drafts_and_distributions_good (BOT_TOKEN : option str)
    (inputs : list (world * update)) :
  let st := main BOT_TOKEN inputs in
  (∀ u d, user_draft_content st !! u = Some d → good_draft d) ∧
  Forall good_draft (distributed (trace st)) ∧
  Forall (λ p, ∃ key d, key ≠ [] ∧ good_draft d ∧ p = build_payload key d)
         (posted (trace st)).
Proof.
  intros st. destruct (main_invariant BOT_TOKEN inputs) as (H1 & H2 & H3 & _).
  split; [exact H1|]. split; [exact H2|exact H3].
Qed.

(** X11. From the start of [main], each draft is used at most once: the
    number of calls of the distributor plus the number of drafts still
    stored never exceeds the number of requests sent to Gemini, and the
    number of posts never exceeds the number of calls of the
    distributor. *)
Theorem main_distributes_at_most_generated (BOT_TOKEN : option str)
    (inputs : list (world * update)) :
  let st := main BOT_TOKEN inputs in
  (length (distributed (trace st)) + size (user_draft_content st)
   ≤ length (prompts (trace st)))%nat ∧
  (length (posted (trace st)) ≤ length (distributed (trace st)))%nat.
Proof.
  intros st. destruct (main_invariant BOT_TOKEN inputs) as (_ & _ & _ & H4 & H5).
  split; [exact H5|exact H4].
Qed.

Example main_sample_run :
  let w := sample_world widget_page four_sections posted_ok in
  let st := main (Some (lit "token"))
              [(w, Command 7 (lit "start")); (w, TextMessage 7 sample_url);
               (w, Command 7 (lit "approve")); (w, Command 7 (lit "approve"));
               (w, Command 7 (lit "unknown"))] in
  length (prompts (trace st)) = 1%nat ∧
  distributed (trace st) = [parse_sections four_sections] ∧
  length (posted (trace st)) = 1%nat ∧
  user_draft_content st = ∅ ∧
  last (trace st) = Some (Reply nothing_to_approve_msg).
Proof.
  cbv zeta. split; [vm_compute; reflexivity|]. split; [vm_compute; reflexivity|].
  split; [vm_compute; reflexivity|]. split; vm_compute; reflexivity.
Qed.

(** ** Further properties of the distributor *)

Lemma distribute_posted w d key st resp :
  SOCIALBU_API_KEY w = Some key → key ≠ [] →
  requests_post w (build_payload key d) = Ok resp →
  (distribute_content_socialbu w d st).1
  = Ok (except_distribution (read_response w resp)).
Proof.
  intros Hkey Hne Hpost. rewrite (distribute_with_key w d key st Hkey Hne).
  by rewrite Hpost.
Qed.

Lemma raise_for_status_error {B} (resp : response B) :
  400 ≤ status_code resp < 600 →
  raise_for_status resp = Raise (RequestException (http_error resp)).
Proof.
  intros H. unfold raise_for_status.
  destruct (Z.leb_spec 400 (status_code resp)); [|lia].
  by destruct (Z.ltb_spec (status_code resp) 600); [|lia].
Qed.

(** X12. A response that cannot be read as a SocialBu answer never
    counts as success.  With a status from 400 to 599 the result is the
    network-failure message with the HTTP error's text, whatever the body
    says.  With a good status, a body that fails to decode with a
    [RequestException] gives the network-failure message, any other
    decoding failure the general message, and a body that is valid JSON but
    not an object the general message too. *)
Theorem distribute_unreadable_response (w : world) (d : gmap str str) (key : str)
    (st : state) (resp : response json) :
  SOCIALBU_API_KEY w = Some key → key ≠ [] →
  requests_post w (build_payload key d) = Ok resp →
  let result := (distribute_content_socialbu w d st).1 in
  (400 ≤ status_code resp < 600 →
   result = Ok (lit "Distribution failed due to network/API error: " ++ http_error resp)) ∧
  (raise_for_status resp = Ok tt →
   (∀ e, body resp = Raise (RequestException e) →
         result = Ok (lit "Distribution failed due to network/API error: " ++ e)) ∧
   (∀ e, body resp = Raise e → (∀ e', e ≠ RequestException e') →
         result = Ok (lit "An unexpected error occurred during distribution.")) ∧
   (∀ v, body resp = Ok v → (∀ ms, v ≠ JDict ms) →
         result = Ok (lit "An unexpected error occurred during distribution."))).
Proof.
  intros Hkey Hne Hpost result. unfold result.
  rewrite (distribute_posted w d key st resp Hkey Hne Hpost).
  unfold read_response. split.
  - intros Hstatus. by rewrite raise_for_status_error.
  - intros ->. cbn [res_bind]. split; [|split].
    + by intros e ->.
    + intros e -> He. destruct e as [e|e|e]; [by destruct (He e)|done..].
    + intros v -> Hv. destruct v as [| | | | | |ms]; try done. by destruct (Hv ms).
Qed.

Lemma distribute_unreadable_response_witness :
  let d : gmap str str := {[Facebook := lit "A"]} in
  let st := with_drafts ∅ in
  let busy : response json :=
    {| status_code := 503; http_error := lit "503 Server Error"; body := Ok posted_ok |} in
  let listed : response json := ok_response (JList [JStr (lit "success")]) in
  let w1 := post_world (Some (lit "secret")) (Ok busy) in
  let w2 := post_world (Some (lit "secret")) (Ok listed) in
  (SOCIALBU_API_KEY w1 = Some (lit "secret") ∧ lit "secret" ≠ [] ∧
   requests_post w1 (build_payload (lit "secret") d) = Ok busy ∧
   400 ≤ status_code busy < 600 ∧
   requests_post w2 (build_payload (lit "secret") d) = Ok listed ∧
   raise_for_status listed = Ok tt) ∧
  (distribute_content_socialbu w1 d st).1
  = Ok (lit "Distribution failed due to network/API error: 503 Server Error") ∧
  (distribute_content_socialbu w2 d st).1
  = Ok (lit "An unexpected error occurred during distribution.").
Proof.
  intros d st busy listed w1 w2.
  assert (lit "secret" ≠ []) as Hk by (by vm_compute).
  assert (400 ≤ status_code busy < 600) as Hbusy by (cbn; lia).
  split; [by repeat split|]. split.
  - exact (proj1 (distribute_unreadable_response w1 d (lit "secret") st busy
                    eq_refl Hk eq_refl) Hbusy).
  - destruct (distribute_unreadable_response w2 d (lit "secret") st listed
                eq_refl Hk eq_refl) as [_ H].
    destruct (H eq_refl) as (_ & _ & Hshape).
    by apply (Hshape (JList [JStr (lit "success")]) eq_refl).
Defined.

(** X13. Reading a SocialBu answer that is an object.  Only the string
    ["success"] as status counts as success.  On success the message shows
    the post id, or [None] when the answer has no data or the data has no
    post id; data that is not an object gives the general failure message.
    On any other status the message shows the answer's message, or
    ["Unknown error"] when it has none. *)
Theorem distribute_answer_defaults (w : world) (d : gmap str str) (key : str)
    (st : state) (resp : response json) (ms : list (str * json)) :
  SOCIALBU_API_KEY w = Some key → key ≠ [] →
  requests_post w (build_payload key d) = Ok resp →
  raise_for_status resp = Ok tt → body resp = Ok (JDict ms) →
  let result := (distribute_content_socialbu w d st).1 in
  (members_get ms (lit "status") = Some (JStr (lit "success")) →
   (members_get ms (lit "data") = None →
    result = Ok (lit "Content successfully distributed via SocialBu! (Post ID: None).")) ∧
   (∀ ds, members_get ms (lit "data") = Some (JDict ds) →
          members_get ds (lit "post_id") = None →
          result = Ok (lit "Content successfully distributed via SocialBu! (Post ID: None).")) ∧
   (∀ v, members_get ms (lit "data") = Some v → (∀ ds, v ≠ JDict ds) →
         result = Ok (lit "An unexpected error occurred during distribution."))) ∧
  (members_get ms (lit "status") ≠ Some (JStr (lit "success")) →
   (members_get ms (lit "message") = None →
    result = Ok (lit "SocialBu API reported an error: Unknown error")) ∧
   (∀ m, members_get ms (lit "message") = Some (JStr m) →
         result = Ok (lit "SocialBu API reported an error: " ++ m))).
Proof.
  intros Hkey Hne Hpost Hstatus Hbody result. unfold result.
  rewrite (distribute_posted w d key st resp Hkey Hne Hpost).
  unfold read_response. rewrite Hstatus, Hbody. cbn [res_bind json_get].
  split.
  - intros ->. cbn [from_option id].
    rewrite (proj2 (json_eq_str_true _ _) eq_refl).
    split; [|split].
    + intros ->. reflexivity.
    + intros ds -> Hid. cbn [from_option id res_bind json_get]. rewrite Hid. reflexivity.
    + intros v -> Hv. cbn [from_option id].
      destruct v as [| | | | | |ds]; try done. by destruct (Hv ds).
  - intros Hno.
    assert (json_eq_str (default JNull (members_get ms (lit "status"))) (lit "success")
            = false) as ->.
    { destruct (json_eq_str _ _) eqn:E; [|done].
      apply json_eq_str_true in E.
      destruct (members_get ms (lit "status")) as [v|]; [|discriminate].
      cbn in E. by subst. }
    split.
    + intros ->. reflexivity.
    + intros m ->. reflexivity.
Qed.

Lemma distribute_answer_defaults_witness :
  let d : gmap str str := {[Facebook := lit "A"]} in
  let st := with_drafts ∅ in
  let bare := [(lit "status", JStr (lit "success"))] in
  let shouted := [(lit "status", JStr (lit "Success"))] in
  let w1 := post_world (Some (lit "secret")) (Ok (ok_response (JDict bare))) in
  let w2 := post_world (Some (lit "secret")) (Ok (ok_response (JDict shouted))) in
  (lit "secret" ≠ [] ∧
   members_get bare (lit "status") = Some (JStr (lit "success")) ∧
   members_get bare (lit "data") = None ∧
   members_get shouted (lit "status") ≠ Some (JStr (lit "success")) ∧
   members_get shouted (lit "message") = None) ∧
  (distribute_content_socialbu w1 d st).1
  = Ok (lit "Content successfully distributed via SocialBu! (Post ID: None).") ∧
  (distribute_content_socialbu w2 d st).1
  = Ok (lit "SocialBu API reported an error: Unknown error").
Proof.
  intros d st bare shouted w1 w2.
  assert (lit "secret" ≠ []) as Hk by (by vm_compute).
  assert (members_get shouted (lit "status") ≠ Some (JStr (lit "success"))) as Hs
    by (by vm_compute).
  split; [by repeat split|]. split.
  - destruct (distribute_answer_defaults w1 d (lit "secret") st
                (ok_response (JDict bare)) bare eq_refl Hk eq_refl eq_refl eq_refl)
      as [H _].
    destruct (H eq_refl) as (Hnone & _). exact (Hnone eq_refl).
  - destruct (distribute_answer_defaults w2 d (lit "secret") st
                (ok_response (JDict shouted)) shouted eq_refl Hk eq_refl eq_refl eq_refl)
      as [_ H].
    destruct (H Hs) as (Hnone & _). exact (Hnone eq_refl).
Defined.

(** ** Occurrences *)

Section Occurrences.

Implicit Types s sub t x y : str.

Lemma find_from_Some_split s sub i j :
  find_from s sub i = Some j → ∃ x y, s = x ++ sub ++ y.
Proof.
  revert i. induction s as [|c s IH]; intros i; cbn [find_from].
  - destruct (startswith [] sub) eqn:E; [|done]. intros _.
    destruct (startswith_inv _ _ E) as [r ->]. by exists [], r.
  - destruct (startswith (c :: s) sub) eqn:E.
    + intros _. destruct (startswith_inv _ _ E) as [r Hr]. exists [], r. by rewrite Hr.
    + intros H. destruct (IH _ H) as (x & y & ->). by exists (c :: x), y.
Qed.

Lemma contains_occurrence x sub y : contains (x ++ sub ++ y) sub = true.
Proof.
  unfold contains. induction x as [|c x IH]; cbn [app].
  - by rewrite find_from_hit by apply startswith_app.
  - cbn [find_from]. destruct (startswith _ _); [done|].
    destruct (find_from (x ++ sub ++ y) sub 1) eqn:E; [done|].
    by rewrite (find_from_None_shift _ _ _ 0%nat E) in IH.
Qed.

Lemma contains_infix_false x v y sub :
  contains (x ++ v ++ y) sub = false → contains v sub = false.
Proof.
  intros H. destruct (contains v sub) eqn:E; [|done].
  unfold contains in E. destruct (find_from v sub 0) as [j|] eqn:Ej; [|done].
  destruct (find_from_Some_split _ _ _ _ Ej) as (x' & y' & ->).
  replace (x ++ (x' ++ sub ++ y') ++ y) with ((x ++ x') ++ sub ++ (y' ++ y)) in H
    by (by rewrite <- !app_assoc).
  by rewrite contains_occurrence in H.
Qed.

Lemma find_from_bounds s sub i j :
  find_from s sub i = Some j → (i ≤ j ∧ j + length sub ≤ i + length s)%nat.
Proof.
  revert i. induction s as [|c s IH]; intros i; cbn [find_from].
  - destruct (startswith [] sub) eqn:E; [|done]. intros [= <-].
    destruct (startswith_inv _ _ E) as [r Hr].
    apply (f_equal length) in Hr. rewrite length_app in Hr. cbn in *. lia.
  - destruct (startswith (c :: s) sub) eqn:E.
    + intros [= <-]. destruct (startswith_inv _ _ E) as [r Hr].
      apply (f_equal length) in Hr. rewrite length_app in Hr. cbn in *. lia.
    + intros H. apply IH in H. cbn [length]. lia.
Qed.

Lemma startswith_take s sub n :
  startswith (take n s) sub = true → startswith s sub = true.
Proof.
  intros H. destruct (startswith_inv _ _ H) as [r Hr].
  rewrite <- (take_drop n s), Hr, <- app_assoc. apply startswith_app.
Qed.

(** Before its first occurrence, [sub] does not occur. *)
Lemma contains_before_first s sub i j :
  sub ≠ [] → find_from s sub i = Some j → contains (take (j - i) s) sub = false.
Proof.
  intros Hsub. revert i. induction s as [|c s IH]; intros i; cbn [find_from].
  - destruct sub; [done|]. rewrite take_nil. by intros _.
  - destruct (startswith (c :: s) sub) eqn:E.
    + intros [= <-]. rewrite Nat.sub_diag. destruct sub; [done|]. done.
    + intros H. pose proof (find_from_bounds _ _ _ _ H) as [Hle _].
      replace (j - i)%nat with (S (j - S i)) by lia. cbn [take].
      unfold contains. cbn [find_from].
      destruct (startswith (c :: take (j - S i) s) sub) eqn:E'.
      { apply (startswith_take (c :: s) sub (S (j - S i))) in E'. congruence. }
      pose proof (IH _ H) as Hc. unfold contains in Hc.
      destruct (find_from (take (j - S i) s) sub 0) eqn:E0; [done|].
      by rewrite (find_from_None_shift _ _ _ 1%nat E0).
Qed.

End Occurrences.

(** X14. The copies stored for Facebook, X (Twitter) and LinkedIn never
    contain ["## "]: each ends before the next header. *)
Theorem parse_sections_inner_copy_no_marker (raw_text p v : str) :
  parse_sections raw_text !! p = Some v → p ≠ Pinterest →
  contains v marker = false.
Proof.
  rewrite parse_sections_lookup.
  destruct (bool_decide (p ∈ platforms)); [|done]. cbn [andb].
  rewrite contains_find, find_0.
  destruct (find_from raw_text (header p) 0) as [i|] eqn:Hi;
    [|by rewrite bool_decide_false by (intros H; by apply H)].
  rewrite bool_decide_true by lia. intros [= <-] Hp.
  unfold copy_of. rewrite find_0, Hi, (bool_decide_true _ Hp).
  pose proof (find_from_bounds _ _ _ _ Hi) as [_ Hbound].
  set (cs := Z.of_nat i + len (header p)).
  assert (cs = Z.of_nat (i + length (header p))) as Hcs by (unfold cs, len; lia).
  assert (∃ n, slice raw_text cs (find raw_text marker cs)
               = take n (drop (i + length (header p)) raw_text) ∧
               (contains (drop (i + length (header p)) raw_text) marker = false ∨
                ∃ j, find_from (drop (i + length (header p)) raw_text) marker
                       (i + length (header p)) = Some j ∧
                     n = (j - (i + length (header p)))%nat)) as (n & Hslice & Hn).
  { unfold slice, clip, find, len.
    destruct (Z.ltb_spec cs 0) as [?|_]; [lia|].
    destruct (Z.ltb_spec (Z.of_nat (length raw_text)) cs) as [?|_]; [lia|].
    rewrite (Z.min_l cs) by lia. rewrite Hcs, Nat2Z.id.
    destruct (find_from (drop (i + length (header p)) raw_text) marker
                (i + length (header p))) as [j|] eqn:Hj.
    - eexists. split; [reflexivity|]. right. exists j. split; [done|].
      pose proof (find_from_bounds _ _ _ _ Hj) as [Hge Hle].
      rewrite length_drop in Hle.
      destruct (Z.ltb_spec (Z.of_nat j) 0) as [?|_]; [lia|].
      rewrite Z.min_l by lia. lia.
    - eexists. split; [reflexivity|]. left. unfold contains.
      by rewrite (find_from_None_shift _ _ _ 0%nat Hj). }
  rewrite Hslice.
  assert (contains (take n (drop (i + length (header p)) raw_text)) marker = false)
    as Hfree.
  { destruct Hn as [Hnone | (j & Hj & ->)].
    - apply (contains_infix_false [] _ (drop n (drop (i + length (header p)) raw_text))).
      cbn [app]. by rewrite take_drop.
    - by apply (contains_before_first _ marker _ j). }
  destruct (strip_split (take n (drop (i + length (header p)) raw_text)))
    as (ws1 & ws2 & E & _).
  rewrite E in Hfree. by apply contains_infix_false in Hfree.
Qed.

Lemma parse_sections_inner_copy_no_marker_witness :
  parse_sections four_sections !! X_Twitter = Some (lit "B") ∧
  X_Twitter ≠ Pinterest ∧
  contains (lit "B") marker = false.
Proof.
  assert (parse_sections four_sections !! X_Twitter = Some (lit "B")) as H
    by (by vm_compute).
  assert (X_Twitter ≠ Pinterest) as Hne by done.
  split; [exact H|]. split; [exact Hne|].
  exact (parse_sections_inner_copy_no_marker four_sections X_Twitter (lit "B") H Hne).
Defined.

(** ** The helpers catch what they raise *)

(** X15. [scrape_product_details] and [generate_sales_copy] end without
    an exception whatever the services do, and leave the drafts alone.
    The scraper makes exactly one request and returns product details
    exactly when the page is fetched with a good status and parsed.  The
    generator sends at most one request to Gemini, and none without a
    client; it returns either a message without a dictionary, or the text
    Gemini wrote together with the dictionary parsed from it. *)
Theorem helpers_catch_everything (w : world) (url : str) (pd : product_details)
    (st : state) :
  (∃ r, scrape_product_details w url st = (Ok r, after st [CallScrape url; HttpGet url]) ∧
        ∀ details, r = Some details
                   ↔ ∃ soup, fetched w url soup ∧ details = details_of_page url soup) ∧
  (∃ r evs, generate_sales_copy w pd st = (Ok r, after st (CallGenerate pd :: evs)) ∧
            (evs = [] ∨ evs = [Generate (prompt_of pd)]) ∧
            (gemini_client w = false → evs = []) ∧
            (r.2 = None ∨
             generate_content w (prompt_of pd) = Ok (Some r.1) ∧
             r.2 = Some (parse_sections r.1))).
Proof.
  split.
  - exists (scrape_result w url). split; [apply scrape_product_details_runs|].
    intros details. split.
    + unfold scrape_result, fetched.
      destruct (requests_get w url) as [resp|e]; [|done].
      destruct (raise_for_status resp) as [[]|e] eqn:Hs; [|done].
      destruct (body resp) as [soup|e] eqn:Hb; [|done].
      intros [= <-]. exists soup. split; [|done]. by exists resp.
    + intros (soup & Hf & ->). by apply fetched_scrape_result.
  - exists (generate_result w pd),
           (if gemini_client w then [Generate (prompt_of pd)] else []).
    split; [apply generate_sales_copy_runs|].
    split; [destruct (gemini_client w); [by right|by left]|].
    split; [by intros ->|].
    destruct (generate_result w pd) as [md [d|]] eqn:E; [|by left].
    right. apply generate_result_dict in E as (_ & Hgen & ->). by split.
Qed.
